(** * Resilient request dispatcher of the frontend API layer

    A shallow embedding of [src/frontend/src/api/apiConfig.js]: the
    per-endpoint circuit breaker ([circuitBreakers]), the throttle windows
    ([recentCalls]), the TTL response cache ([responseCache]), the
    fallback data, [retryRequest], and the two axios interceptors.

    The axios pipeline is modelled as the code relies on it: the request
    interceptor runs first; an object it throws reaches the rejection
    handler of the response interceptor (which turns a thrown
    [__MOCK_RESPONSE__] into a resolved response); otherwise the live call
    is made and its result goes to the fulfilment handler (2xx) or to the
    rejection handler (anything else).  The network is an oracle
    [net : nat -> Z * outcome] giving, for the k-th call of the dispatch,
    the clock value at which its result is observed and the result. *)

From stdpp Require Import base gmap strings list pretty.
From Stdlib Require Import ZArith Lia Ascii.

Local Open Scope Z_scope.
Set Warnings "-register-all".

(* ------------------------------------------------------------------ *)
(** ** JSON values *)

Inductive json :=
| JNull
| JBool (b : bool)
| JNum (n : Z)
| JStr (s : string)
| JArr (l : list json)
| JObj (fs : list (string * json)).

(** JavaScript truthiness of a value ([if (x)]). *)
Definition truthy (v : json) : bool :=
  match v with
  | JNull => false
  | JBool b => b
  | JNum n => negb (n =? 0)
  | JStr s => negb (String.eqb s EmptyString)
  | JArr _ | JObj _ => true
  end.

(** [{ ...o, k: v }]: setting a key keeps its first position when it is
    already present, and appends it otherwise. *)
Fixpoint obj_set (k : string) (v : json) (fs : list (string * json))
  : list (string * json) :=
  match fs with
  | [] => [(k, v)]
  | (k', v') :: fs' =>
      if String.eqb k k' then (k', v) :: fs' else (k', v') :: obj_set k v fs'
  end.

Fixpoint obj_get (k : string) (fs : list (string * json)) : option json :=
  match fs with
  | [] => None
  | (k', v') :: fs' => if String.eqb k k' then Some v' else obj_get k fs'
  end.

(** [v[k]] on an object. *)
Definition json_get (k : string) (v : json) : option json :=
  match v with JObj fs => obj_get k fs | _ => None end.

Fixpoint chars_of (s : string) : list json :=
  match s with
  | EmptyString => []
  | String c s' => JStr (String c EmptyString) :: chars_of s'
  end.

Fixpoint indexed (i : nat) (l : list json) : list (string * json) :=
  match l with
  | [] => []
  | x :: l' => (pretty i, x) :: indexed (S i) l'
  end.

(** The own enumerable properties that the spread [...v] copies. *)
Definition spread_fields (v : json) : list (string * json) :=
  match v with
  | JObj fs => fs
  | JArr l => indexed 0 l
  | JStr s => indexed 0 (chars_of s)
  | _ => []
  end.

(** [new Date(t).toISOString()]: calendar formatting is not modelled; the
    string depends on the clock value only. *)
Definition toISOString (t : Z) : string := pretty t.

(* ------------------------------------------------------------------ *)
(** ** Strings of the request *)

Fixpoint starts_with (s key : string) : bool :=
  match key, s with
  | EmptyString, _ => true
  | String c k', String d s' => Ascii.eqb c d && starts_with s' k'
  | String _ _, EmptyString => false
  end.

(** [s.includes(key)] *)
Fixpoint includes (s key : string) : bool :=
  starts_with s key ||
  match s with
  | EmptyString => false
  | String _ s' => includes s' key
  end.

Inductive method := GET | POST | PUT | DELETE | PATCH.

(** [config.method?.toUpperCase() || 'GET'] (axios stores it lower-case). *)
Definition method_str (m : method) : string :=
  match m with
  | GET => "GET" | POST => "POST" | PUT => "PUT"
  | DELETE => "DELETE" | PATCH => "PATCH"
  end.

Definition method_eqb (m1 m2 : method) : bool :=
  String.eqb (method_str m1) (method_str m2).

(** [`${method}:${endpoint}`] *)
Definition cache_key (m : method) (endpoint : string) : string :=
  String.append (method_str m) (String.append ":" endpoint).

(* ------------------------------------------------------------------ *)
(** ** Constants *)

Definition THROTTLE_WINDOW := 1000.
Definition MAX_CALLS_PER_WINDOW := 10.
Definition CIRCUIT_BREAKER_THRESHOLD := 5.
Definition CIRCUIT_BREAKER_TIMEOUT := 30000.
Definition RETRY_ATTEMPTS : nat := 3.
Definition CACHE_TTL := 5 * 60 * 1000.

(* ------------------------------------------------------------------ *)
(** ** Dispatcher state *)

Inductive cstate := CLOSED | OPEN | HALF_OPEN.

Definition cstate_eqb (a b : cstate) : bool :=
  match a, b with
  | CLOSED, CLOSED | OPEN, OPEN | HALF_OPEN, HALF_OPEN => true
  | _, _ => false
  end.

Record breaker := mkBreaker {
  state : cstate;
  failureCount : Z;
  lastFailureTime : option Z;   (* null = None *)
  lastSuccessTime : option Z
}.

(** An entry of [recentCalls]; [lastResponse: null] is [JNull]. *)
Record window := mkWindow {
  time : Z;
  count : Z;
  lastResponse : json
}.

(** An entry of [responseCache]. *)
Record centry := mkCentry {
  cdata : json;
  ctimestamp : Z
}.

Record dstate := mkState {
  circuitBreakers : gmap string breaker;
  recentCalls : gmap string window;
  responseCache : gmap string centry
}.

Definition empty_state : dstate := mkState ∅ ∅ ∅.

Definition set_breakers (st : dstate) (bs : gmap string breaker) : dstate :=
  mkState bs (recentCalls st) (responseCache st).
Definition set_calls (st : dstate) (cs : gmap string window) : dstate :=
  mkState (circuitBreakers st) cs (responseCache st).
Definition set_cache (st : dstate) (c : gmap string centry) : dstate :=
  mkState (circuitBreakers st) (recentCalls st) c.

(** [Date.now() - x] with [x] possibly [null] (coerced to 0). *)
Definition js_num (x : option Z) : Z :=
  match x with Some v => v | None => 0 end.

(* ------------------------------------------------------------------ *)
(** ** Helpers of apiConfig.js *)

Definition initial_breaker : breaker := mkBreaker CLOSED 0 None None.

(** [getCircuitBreaker]: lazily creates the entry. *)
Definition getCircuitBreaker (bs : gmap string breaker) (endpoint : string)
  : gmap string breaker * breaker :=
  match bs !! endpoint with
  | Some b => (bs, b)
  | None => (<[endpoint := initial_breaker]> bs, initial_breaker)
  end.

Definition shouldAttemptReset (b : breaker) (now : Z) : bool :=
  cstate_eqb (state b) OPEN &&
  (now - js_num (lastFailureTime b) >? CIRCUIT_BREAKER_TIMEOUT).

(** The payload of [getCachedResponse]:
    [{ ...cached.data, fromCache: true, cacheAge: now - cached.timestamp }]. *)
Definition cached_view (e : centry) (now : Z) : json :=
  JObj (obj_set "cacheAge" (JNum (now - ctimestamp e))
          (obj_set "fromCache" (JBool true) (spread_fields (cdata e)))).

Definition getCachedResponse (c : gmap string centry) (key : string) (now : Z)
  : option json :=
  match c !! key with
  | Some e => if now - ctimestamp e <? CACHE_TTL then Some (cached_view e now) else None
  | None => None
  end.

Definition cacheResponse (c : gmap string centry) (key : string) (data : json) (now : Z)
  : gmap string centry :=
  <[key := mkCentry data now]> c.

(** A response object handed to the caller.  [rstatus]/[rstatusText] are
    [None] where the object has no such field, and [rstatusText] is [None]
    for live responses, whose text comes from the server. *)
Record response := mkResp {
  rdata : json;
  rstatus : option Z;
  rstatusText : option string
}.

Definition pagination_stub : json :=
  JObj [("page", JNum 1); ("limit", JNum 10); ("total", JNum 0)].

Definition fallbackData : list (string * list (string * json)) :=
  [ ("/settings",
      [("success", JBool true); ("data", JArr []);
       ("message", JStr "Using cached settings data")]);
    ("/expenses",
      [("success", JBool true); ("data", JArr []); ("pagination", pagination_stub);
       ("message", JStr "Using cached expenses data")]);
    ("/budgets",
      [("success", JBool true); ("data", JArr []); ("pagination", pagination_stub);
       ("message", JStr "Using cached budgets data")]) ].

(** [Object.keys(fallbackData).find(key => endpoint.includes(key) || endpoint.startsWith(key))] *)
Definition find_fallback (endpoint : string) : option (list (string * json)) :=
  snd <$> List.find (fun kv => includes endpoint kv.1 || starts_with endpoint kv.1) fallbackData.

Definition getFallbackResponse (endpoint : string) (m : method) (now : Z) : response :=
  match find_fallback endpoint with
  | Some fs =>
      mkResp (JObj (obj_set "timestamp" (JStr (toISOString now))
                     (obj_set "endpoint" (JStr endpoint)
                        (obj_set "fallback" (JBool true) fs))))
             (Some 200) (Some "OK (Fallback)")
  | None =>
      mkResp (JObj [("success", JBool false);
                    ("message", JStr "Service temporarily unavailable. Please try again later.");
                    ("fallback", JBool true);
                    ("endpoint", JStr endpoint);
                    ("timestamp", JStr (toISOString now))])
             (Some 503) (Some "Service Unavailable (Fallback)")
  end.

(* ------------------------------------------------------------------ *)
(** ** The request interceptor *)

(** What the request interceptor throws: a [{ __MOCK_RESPONSE__: r }]
    object, or an [axios.Cancel] with its message. *)
Inductive thrown :=
| Mock (r : response)
| Cancel (msg : string).

Inductive pre :=
| Proceed                 (* [return config]: the live call is made *)
| Throw (e : thrown).

Definition DEPRECATED_ENDPOINT : string := "/settings/defaults".

Definition deprecated_payload : json :=
  JObj [("success", JBool true); ("data", JArr []);
        ("message", JStr "Deprecated endpoint - use /settings instead")].

(** The tail of the interceptor after the throttling block. *)
Definition deprecation_check (endpoint : string) : pre :=
  if String.eqb endpoint DEPRECATED_ENDPOINT
  then Throw (Mock (mkResp deprecated_payload None None))
  else Proceed.

(** Throttling block, run on [recentCalls] once the breaker let the
    request through. *)
Definition throttle (st : dstate) (m : method) (endpoint : string) (now : Z)
  : dstate * pre :=
  let key := cache_key m endpoint in
  match recentCalls st !! endpoint with
  | Some w =>
      if now - time w <? THROTTLE_WINDOW then
        let w' := mkWindow (time w) (count w + 1) (lastResponse w) in
        let st' := set_calls st (<[endpoint := w']> (recentCalls st)) in
        if count w' >? MAX_CALLS_PER_WINDOW then
          match getCachedResponse (responseCache st') key now with
          | Some c => (st', Throw (Mock (mkResp c (Some 200) (Some "OK (Cached)"))))
          | None =>
              if truthy (lastResponse w') then
                (st', Throw (Mock (mkResp (lastResponse w') (Some 200)
                                          (Some "OK (Throttled Cache)"))))
              else
                (st', Throw (Cancel (String.append "Circuit breaker: Too many calls to " endpoint)))
          end
        else (st', deprecation_check endpoint)
      else
        (set_calls st (<[endpoint := mkWindow now 1 JNull]> (recentCalls st)),
         deprecation_check endpoint)
  | None =>
      (set_calls st (<[endpoint := mkWindow now 1 JNull]> (recentCalls st)),
       deprecation_check endpoint)
  end.

(** [API.interceptors.request.use(config => ...)]; the token attachment
    does not touch the dispatcher state and is not modelled. *)
Definition request_interceptor (st : dstate) (m : method) (endpoint : string) (now : Z)
  : dstate * pre :=
  let key := cache_key m endpoint in
  let '(bs, b) := getCircuitBreaker (circuitBreakers st) endpoint in
  let st := set_breakers st bs in
  match state b with
  | OPEN =>
      if shouldAttemptReset b now then
        let b' := mkBreaker HALF_OPEN (failureCount b) (lastFailureTime b) (lastSuccessTime b) in
        throttle (set_breakers st (<[endpoint := b']> bs)) m endpoint now
      else
        match getCachedResponse (responseCache st) key now with
        | Some c => (st, Throw (Mock (mkResp c (Some 200) (Some "OK (Cached)"))))
        | None => (st, Throw (Mock (getFallbackResponse endpoint m now)))
        end
  | _ => throttle st m endpoint now
  end.

(* ------------------------------------------------------------------ *)
(** ** The network and [retryRequest] *)

(** Result of one live call: an HTTP response (status and body) or no
    response at all (transport failure, [error.request] set). *)
Inductive outcome :=
| Resp (status : Z) (data : json)
| NoResp.

(** axios' default [validateStatus]. *)
Definition is_success (o : outcome) : bool :=
  match o with Resp s _ => (200 <=? s) && (s <? 300) | NoResp => false end.

(** [error.response?.status >= 500 && error.response?.status < 600] *)
Definition is_5xx (o : outcome) : bool :=
  match o with Resp s _ => (500 <=? s) && (s <? 600) | NoResp => false end.

Definition network := nat -> Z * outcome.

(** [retryRequest(config, attempt)]: calls the bare [axios] (no
    interceptors) and retries 5xx results while [attempt < RETRY_ATTEMPTS].
    [k] is the index of the next network call; the result is the last
    observed call and the index after it.  [fuel] only bounds the
    recursion, the [attempt] test stops it first. *)
Fixpoint retryRequest (net : network) (fuel attempt k : nat) : (Z * outcome) * nat :=
  let r := net k in
  if is_success r.2 then (r, S k)
  else match fuel with
       | O => (r, S k)
       | S f =>
           if Nat.ltb attempt RETRY_ATTEMPTS && is_5xx r.2
           then retryRequest net f (S attempt) (S k)
           else (r, S k)
       end.

(* ------------------------------------------------------------------ *)
(** ** The response interceptor *)

(** The rejection value handed to the caller ([enhancedError]): the HTTP
    status ([error.response?.status]), whether it is the throttle's
    [axios.Cancel], the endpoint and the breaker state it reports
    ([None] for ['unknown']). *)
Record err := mkErr {
  e_status : option Z;
  e_cancelled : bool;
  e_endpoint : option string;
  e_circuitState : option cstate
}.

Inductive result :=
| Resolved (r : response)
| Rejected (e : err).

(** One whole dispatch: what the caller gets, the state afterwards, the
    number of live network calls made, and the last network result seen. *)
Record dispatch_result := mkDispatch {
  d_result : result;
  d_state : dstate;
  d_calls : nat;
  d_last : option (Z * outcome)
}.

(** Fulfilment handler, for a 2xx response of the live call at time [t]. *)
Definition success_handler (st : dstate) (m : method) (endpoint : string)
    (t : Z) (s : Z) (d : json) : dstate * response :=
  let key := cache_key m endpoint in
  let '(bs, b) := getCircuitBreaker (circuitBreakers st) endpoint in
  let bs' :=
    match state b with
    | HALF_OPEN => <[endpoint := mkBreaker CLOSED 0 (lastFailureTime b) (Some t)]> bs
    | CLOSED => <[endpoint := mkBreaker (state b) 0 (lastFailureTime b) (Some t)]> bs
    | OPEN => bs
    end in
  let c' :=
    if method_eqb m GET && truthy d && (s =? 200)
    then cacheResponse (responseCache st) key d t
    else responseCache st in
  let cs' :=
    match recentCalls st !! endpoint with
    | Some w => <[endpoint := mkWindow (time w) (count w) d]> (recentCalls st)
    | None => recentCalls st
    end in
  (mkState bs' cs' c', mkResp d (Some s) None).

Definition status_of (o : outcome) : option Z :=
  match o with Resp s _ => Some s | NoResp => None end.

(** [error.response?.status >= 500] *)
Definition is_server_error (o : outcome) : bool :=
  match o with Resp s _ => 500 <=? s | NoResp => false end.

(** [!error.response && error.request] *)
Definition is_network_error (o : outcome) : bool :=
  match o with Resp _ _ => false | NoResp => true end.

(** The breaker update at the top of the rejection handler. *)
Definition record_failure (bs : gmap string breaker) (endpoint : string)
    (t : Z) (o : outcome) : gmap string breaker :=
  if String.eqb endpoint "" then bs
  else
    let '(bs1, b) := getCircuitBreaker bs endpoint in
    if is_server_error o || is_network_error o then
      let fc := failureCount b + 1 in
      let st' := if fc >=? CIRCUIT_BREAKER_THRESHOLD then OPEN else state b in
      <[endpoint := mkBreaker st' fc (Some t) (lastSuccessTime b)]> bs1
    else bs1.

(** The end of the rejection handler: [parseError], logging, the logout
    event and [Promise.reject(enhancedError)]. *)
Definition reject_with (st : dstate) (endpoint : string) (o : outcome) : dstate * result :=
  if String.eqb endpoint "" then
    (st, Rejected (mkErr (status_of o) false (Some endpoint) None))
  else
    let '(bs, b) := getCircuitBreaker (circuitBreakers st) endpoint in
    (set_breakers st bs, Rejected (mkErr (status_of o) false (Some endpoint) (Some (state b)))).

(** Rejection handler for an error of the live call ([t1], [o1]).  The
    retries use [net] from call index 1 on. *)
Definition on_live_error (st : dstate) (m : method) (endpoint : string)
    (t1 : Z) (o1 : outcome) (net : network) : dispatch_result :=
  let key := cache_key m endpoint in
  let st1 := set_breakers st (record_failure (circuitBreakers st) endpoint t1 o1) in
  let '(last, calls) :=
    if is_5xx o1 then retryRequest net RETRY_ATTEMPTS 1 1 else ((t1, o1), 1%nat) in
  let '(tk, ok) := last in
  match ok with
  | Resp s d =>
      if is_success ok then mkDispatch (Resolved (mkResp d (Some s) None)) st1 calls (Some last)
      else
        if negb (String.eqb endpoint "") && is_server_error ok then
          match getCachedResponse (responseCache st1) key tk with
          | Some c => mkDispatch (Resolved (mkResp c (Some 200) (Some "OK (Cached Fallback)")))
                                 st1 calls (Some last)
          | None =>
              if method_eqb m GET
              then mkDispatch (Resolved (getFallbackResponse endpoint m tk)) st1 calls (Some last)
              else let '(st2, r) := reject_with st1 endpoint ok in mkDispatch r st2 calls (Some last)
          end
        else let '(st2, r) := reject_with st1 endpoint ok in mkDispatch r st2 calls (Some last)
  | NoResp =>
      if negb (String.eqb endpoint "") then
        match getCachedResponse (responseCache st1) key tk with
        | Some c => mkDispatch (Resolved (mkResp c (Some 200) (Some "OK (Cached Fallback)")))
                               st1 calls (Some last)
        | None =>
            if method_eqb m GET
            then mkDispatch (Resolved (getFallbackResponse endpoint m tk)) st1 calls (Some last)
            else let '(st2, r) := reject_with st1 endpoint ok in mkDispatch r st2 calls (Some last)
        end
      else let '(st2, r) := reject_with st1 endpoint ok in mkDispatch r st2 calls (Some last)
  end.

(** Rejection handler for what the request interceptor threw: a mock
    response is returned as is; the [axios.Cancel] carries no [config], so
    no breaker is touched, no retry or fallback applies, and it is
    rejected. *)
Definition on_thrown (e : thrown) : result :=
  match e with
  | Mock r => Resolved r
  | Cancel _ => Rejected (mkErr None true None None)
  end.

(** One call [API.request({ method, url: endpoint })] at time [now]. *)
Definition dispatch (st : dstate) (m : method) (endpoint : string) (now : Z)
    (net : network) : dispatch_result :=
  let '(st1, p) := request_interceptor st m endpoint now in
  match p with
  | Throw e => mkDispatch (on_thrown e) st1 0 None
  | Proceed =>
      let '(t1, o1) := net 0%nat in
      match o1 with
      | Resp s d =>
          if is_success o1
          then let '(st2, r) := success_handler st1 m endpoint t1 s d in
               mkDispatch (Resolved r) st2 1 (Some (t1, o1))
          else on_live_error st1 m endpoint t1 o1 net
      | NoResp => on_live_error st1 m endpoint t1 o1 net
      end
  end.

(** Dispatches issued one after the other (each completes before the
    next starts). *)
Fixpoint run (st : dstate) (reqs : list (method * string * Z * network))
  : dstate * list result :=
  match reqs with
  | [] => (st, [])
  | (m, p, now, net) :: reqs' =>
      let d := dispatch st m p now net in
      let '(st', rs) := run (d_state d) reqs' in
      (st', d_result d :: rs)
  end.

(* ------------------------------------------------------------------ *)
(** ** Observations on the state *)

(** The breaker's [failureCount] as [getCircuitBreaker] would report it
    (0 for a breaker not created yet). *)
Definition fc_of (bs : gmap string breaker) (endpoint : string) : Z :=
  match bs !! endpoint with Some b => failureCount b | None => 0 end.

(** The breaker answers the request itself: OPEN and not eligible for a
    reset at [now]. *)
Definition short_circuits (bs : gmap string breaker) (endpoint : string) (now : Z) : bool :=
  match bs !! endpoint with
  | Some b => cstate_eqb (state b) OPEN && negb (shouldAttemptReset b now)
  | None => false
  end.

(** The throttling block would count this request as the 11th or later
    of the current window. *)
Definition throttled (cs : gmap string window) (endpoint : string) (now : Z) : bool :=
  match cs !! endpoint with
  | Some w => (now - time w <? THROTTLE_WINDOW) && (count w + 1 >? MAX_CALLS_PER_WINDOW)
  | None => false
  end.

(* ------------------------------------------------------------------ *)
(** ** Concrete networks and scenarios *)

(** Every call answers [s] with body [d], the k-th one at time [t0 + k]. *)
Definition net_const (t0 : Z) (s : Z) (d : json) : network :=
  fun k => (t0 + Z.of_nat k, Resp s d).

Definition sample_body : json := JObj [("success", JBool true); ("data", JArr [JNum 7])].

(** Five [POST /expenses] calls at times 0, 10, ..., 40, every network
    call answering 503. *)
Definition five_failing_posts : list (method * string * Z * network) :=
  map (fun i => (POST, "/expenses", 10 * i, net_const (10 * i) 503 JNull)) [0; 1; 2; 3; 4].

Definition st_tripped : dstate := fst (run empty_state five_failing_posts).

(** Eleven [GET /expenses] calls at time 0, every network call answering 404. *)
Definition eleven_rejected_gets : list (method * string * Z * network) :=
  repeat (GET, "/expenses", 0, net_const 0 404 JNull) 11.

(** Eleven calls to the deprecated endpoint at time 0. *)
Definition eleven_deprecated : list (method * string * Z * network) :=
  repeat (GET, DEPRECATED_ENDPOINT, 0, net_const 0 200 sample_body) 11.

(** One [GET /expenses] at time 0 whose only call fails with 500. *)
Definition st_one_failure : dstate :=
  d_state (dispatch empty_state GET "/expenses" 0 (net_const 0 500 JNull)).

(** [GET /settings] succeeds once at time 0, then five calls at times
    10, ..., 50 fail with 503 on every attempt. *)
Definition settings_scenario : list (method * string * Z * network) :=
  (GET, "/settings", 0, net_const 0 200 sample_body) ::
  map (fun i => (GET, "/settings", 10 * i, net_const (10 * i) 503 JNull)) [1; 2; 3; 4; 5].

Definition st_settings : dstate := fst (run empty_state settings_scenario).

(* ================================================================== *)

(* ------------------------------------------------------------------ *)
(** ** utils/errorHandler.js *)

Inductive error_type :=
| NETWORK | AUTHENTICATION | AUTHORIZATION | VALIDATION | SERVER | CLIENT | UNKNOWN.

Definition error_type_eqb (a b : error_type) : bool :=
  match a, b with
  | NETWORK, NETWORK | AUTHENTICATION, AUTHENTICATION
  | AUTHORIZATION, AUTHORIZATION | VALIDATION, VALIDATION
  | SERVER, SERVER | CLIENT, CLIENT | UNKNOWN, UNKNOWN => true
  | _, _ => false
  end.

Inductive error_severity := LOW | MEDIUM | HIGH | CRITICAL.

(** An [AppError]: its [message] (a string, as [super(message)] stores
    it), [type] and [severity]; [id], [timestamp] and [originalError] are
    not modelled. *)
Record app_error := mkAppError {
  ae_message : string;
  ae_type : error_type;
  ae_severity : error_severity
}.

(** What [parseError] reads of a plain error: [error.response] (its
    [status] and [data]), whether [error.request] is set, and
    [error.message] ([JNull] when undefined). *)
Record js_error := mkJsError {
  je_response : option (Z * json);
  je_request : bool;
  je_message : json
}.

Inductive any_error :=
| IsAppError (a : app_error)     (* [error instanceof AppError] *)
| Plain (e : js_error).

(** [a || b] *)
Definition js_or (a b : json) : json := if truthy a then a else b.

(** [v?.k]: [undefined] (here [JNull]) when [v] has no such property. *)
Definition opt_field (k : string) (v : json) : json :=
  match json_get k v with Some x => x | None => JNull end.

(** [String(v)]; inside an array, [null] and [undefined] print as the
    empty string. *)
Fixpoint js_to_string (v : json) : string :=
  match v with
  | JNull => "null"
  | JBool b => if b then "true" else "false"
  | JNum n => pretty n
  | JStr s => s
  | JArr l =>
      (fix go (l : list json) : string :=
         match l with
         | [] => ""
         | x :: l' =>
             String.append (match x with JNull => "" | _ => js_to_string x end)
               (match l' with [] => "" | _ => String.append "," (go l') end)
         end) l
  | JObj _ => "[object Object]"
  end.

Definition parseError (x : any_error) : app_error :=
  match x with
  | IsAppError a => a
  | Plain e =>
      match je_response e with
      | Some (status, data) =>
          let message :=
            js_or (opt_field "error" data)
              (js_or (opt_field "message" data)
                 (js_or (je_message e)
                    (JStr (String.append "Server error ("
                             (String.append (pretty status) ")"))))) in
          if status =? 401 then
            mkAppError "Authentication required. Please log in again." AUTHENTICATION HIGH
          else if status =? 403 then
            mkAppError "You do not have permission to perform this action." AUTHORIZATION HIGH
          else if (400 <=? status) && (status <? 500) then
            mkAppError (js_to_string message) VALIDATION MEDIUM
          else if 500 <=? status then
            mkAppError "Server error. Please try again later." SERVER HIGH
          else mkAppError (js_to_string message) UNKNOWN MEDIUM
      | None =>
          if je_request e then
            mkAppError "Network error. Please check your connection and try again." NETWORK HIGH
          else if truthy (je_message e) then
            mkAppError (js_to_string (je_message e)) CLIENT MEDIUM
          else mkAppError "An unexpected error occurred" UNKNOWN MEDIUM
      end
  end.

(** [x || dflt] on a string. *)
Definition str_or (x dflt : string) : string :=
  if String.eqb x "" then dflt else x.

Definition getErrorMessage (x : any_error) : string :=
  let p := parseError x in
  match ae_type p with
  | NETWORK => "Unable to connect to the server. Please check your internet connection."
  | AUTHENTICATION => "Your session has expired. Please log in again."
  | AUTHORIZATION => "You do not have permission to perform this action."
  | VALIDATION => str_or (ae_message p) "Please check your input and try again."
  | SERVER => "Server is temporarily unavailable. Please try again later."
  | _ => str_or (ae_message p) "Something went wrong. Please try again."
  end.

(** The browser state the error paths touch: [localStorage] (strings as
    lists of UTF-16 code units) and the events dispatched on [window]
    (name and [detail.reason]). *)
Record browser := mkBrowser {
  local_storage : gmap string (list Z);
  events : list (string * string)
}.

(** What [onRetry()] does on its n-th call: resolves with a value or
    throws an error. *)
Inductive retry_result :=
| RetryOk (v : json)
| RetryThrows (e : any_error).

(** What [handleError] resolves with: the value of a successful
    [onRetry()] or a parsed error. *)
Inductive handled :=
| HReturn (v : json)
| HParsed (a : app_error).

(** The AUTHENTICATION branch of [handleError]. *)
Definition handleError_logout (b : browser) : browser :=
  mkBrowser (delete "user" (delete "token" (local_storage b)))
            (events b ++ [("auth:logout", "authentication_error")]).

(** [handleError(error, { onRetry, maxRetries })] for a non-negative
    integer [maxRetries] (a negative one behaves as 0); [onRetry = None]
    is [null].  [k] counts the calls of [onRetry] made so far; the result
    carries the count at the end.  The waits ([retryDelay], growing by
    1.5) and the asynchronous logging leave no state and are not
    modelled. *)
Fixpoint handleError (onRetry : option (nat -> retry_result)) (x : any_error)
    (maxRetries : nat) (k : nat) (b : browser) : handled * browser * nat :=
  let p := parseError x in
  let b1 := if error_type_eqb (ae_type p) AUTHENTICATION then handleError_logout b else b in
  match onRetry, maxRetries with
  | Some f, S n =>
      if error_type_eqb (ae_type p) NETWORK then
        match f k with
        | RetryOk v => (HReturn v, b1, S k)
        | RetryThrows e => handleError onRetry e n (S k) b1
        end
      else (HParsed p, b1, k)
  | _, _ => (HParsed p, b1, k)
  end.

(** [secureStorage.clear()] ([tokenStorage.clearAll]): removes every key
    that starts with [secure_]. *)
Definition clearAll (ls : gmap string (list Z)) : gmap string (list Z) :=
  filter (fun kv : string * list Z => starts_with kv.1 "secure_" = false) ls.

(** The AUTHENTICATION branch of the rejection handler of apiConfig.js. *)
Definition api_logout (b : browser) : browser :=
  mkBrowser (delete "user" (delete "token" (clearAll (local_storage b))))
            (events b ++ [("auth:logout", "api_authentication_error")]).

(** The error the rejection handler parses for a live call whose last
    result is [o]; [msg] is the [message] axios gave it. *)
Definition axios_error (msg : json) (o : outcome) : js_error :=
  match o with
  | Resp s d => mkJsError (Some (s, d)) true msg
  | NoResp => mkJsError None true msg
  end.

(** Whether the rejection handler of the dispatch takes its
    AUTHENTICATION branch: the error it rejects with is parsed, the live
    call's last error or the throttle's [axios.Cancel] (which has only a
    [message]). *)
Definition dispatch_logs_out (msg : json) (st : dstate) (m : method) (endpoint : string)
    (now : Z) (net : network) : bool :=
  let d := dispatch st m endpoint now net in
  match d_result d, d_last d with
  | Resolved _, _ => false
  | Rejected _, Some (_, o) =>
      error_type_eqb (ae_type (parseError (Plain (axios_error msg o)))) AUTHENTICATION
  | Rejected _, None =>
      match snd (request_interceptor st m endpoint now) with
      | Throw (Cancel c) =>
          error_type_eqb (ae_type (parseError (Plain (mkJsError None false (JStr c)))))
            AUTHENTICATION
      | _ => false
      end
  end.

(** The browser after the dispatch's rejection handler. *)
Definition dispatch_browser (msg : json) (st : dstate) (m : method) (endpoint : string)
    (now : Z) (net : network) (b : browser) : browser :=
  if dispatch_logs_out msg st m endpoint now net then api_logout b else b.


(* ------------------------------------------------------------------ *)
(** ** SecureStorage (utils/logger.js) *)


(** ToInt32, as [x & x] and the shift operators apply it. *)
Definition to_int32 (x : Z) : Z :=
  let m := x mod 2 ^ 32 in if m >=? 2 ^ 31 then m - 2 ^ 32 else m.

(** One round of the hash of [generateKey]:
    [hash = (hash << 5) - hash + char; hash = hash & hash]. *)
Definition hash_step (hash char : Z) : Z :=
  to_int32 (to_int32 (Z.shiftl (to_int32 hash) 5) - hash + char).

(** A digit of [Number.prototype.toString(radix)]. *)
Definition digit_char (d : Z) : Z := if d <? 10 then 48 + d else 87 + d.

(** The digits of [n >= 0] in base [r], most significant first, in front
    of [acc]; [fuel] bounds the number of digits. *)
Fixpoint to_radix_aux (r : Z) (fuel : nat) (n : Z) (acc : list Z) : list Z :=
  match fuel with
  | O => acc
  | S f =>
      let acc' := digit_char (n mod r) :: acc in
      if n <? r then acc' else to_radix_aux r f (n / r) acc'
  end.

(** [n.toString(r)] for an integer [n]; a number has no more digits in
    base [r >= 2] than bits. *)
Definition to_radix (r n : Z) : list Z :=
  if n <? 0 then 45 :: to_radix_aux r (S (Z.to_nat (Z.log2 (- n)))) (- n) []
  else to_radix_aux r (S (Z.to_nat (Z.log2 n))) n [].

(** [generateKey()]: the hash of the browser fingerprint
    ([userAgent + screenInfo + timezone]), as [Math.abs(hash).toString(16)]. *)
Definition generateKey (fingerprint : list Z) : list Z :=
  to_radix 16 (Z.abs (fold_left hash_step fingerprint 0)).

(** [this.key.charCodeAt(i % this.key.length)]; with an empty key the
    index is NaN, the code unit is NaN and [c ^ NaN] is [c ^ 0]. *)
Definition key_char (key : list Z) (i : nat) : Z :=
  match nth_error key (i mod length key) with Some c => c | None => 0 end.

(** The loop of [encrypt] and [decrypt]:
    [String.fromCharCode(charCode ^ keyChar)] from index [i] on. *)
Fixpoint xor_from (key : list Z) (i : nat) (text : list Z) : list Z :=
  match text with
  | [] => []
  | c :: t => (Z.lxor c (key_char key i) mod 2 ^ 16) :: xor_from key (S i) t
  end.

(** Base64 ([btoa] and [atob]). *)
Definition b64_char (n : Z) : Z :=
  if n <? 26 then 65 + n
  else if n <? 52 then 71 + n
  else if n <? 62 then n - 4
  else if n =? 62 then 43 else 47.

Fixpoint b64_body (l : list Z) : list Z :=
  match l with
  | a :: b :: c :: rest =>
      b64_char (a / 4) :: b64_char (a mod 4 * 16 + b / 16) ::
      b64_char (b mod 16 * 4 + c / 64) :: b64_char (c mod 64) :: b64_body rest
  | [a; b] => [b64_char (a / 4); b64_char (a mod 4 * 16 + b / 16); b64_char (b mod 16 * 4)]
  | [a] => [b64_char (a / 4); b64_char (a mod 4 * 16)]
  | [] => []
  end.

Definition b64_pad (l : list Z) : list Z :=
  match (length l mod 3)%nat with 1%nat => [61; 61] | 2%nat => [61] | _ => [] end.

(** [btoa(s)]; [None] where it throws (a code unit above 255). *)
Definition btoa (s : list Z) : option (list Z) :=
  if forallb (fun c => (0 <=? c) && (c <? 256)) s then Some (b64_body s ++ b64_pad s)
  else None.

Definition is_ascii_ws (c : Z) : bool :=
  (c =? 9) || (c =? 10) || (c =? 12) || (c =? 13) || (c =? 32).

Definition b64_value (c : Z) : option Z :=
  if (65 <=? c) && (c <=? 90) then Some (c - 65)
  else if (97 <=? c) && (c <=? 122) then Some (c - 71)
  else if (48 <=? c) && (c <=? 57) then Some (c + 4)
  else if c =? 43 then Some 62
  else if c =? 47 then Some 63
  else None.

Fixpoint b64_values (l : list Z) : option (list Z) :=
  match l with
  | [] => Some []
  | c :: l' =>
      match b64_value c, b64_values l' with
      | Some v, Some vs => Some (v :: vs)
      | _, _ => None
      end
  end.

(** Six-bit values to bytes; a last group of 12 or 18 bits loses its
    low 4 or 2 bits. *)
Fixpoint b64_decode_values (l : list Z) : list Z :=
  match l with
  | a :: b :: c :: d :: rest =>
      (a * 4 + b / 16) :: (b mod 16 * 16 + c / 4) :: (c mod 4 * 64 + d) ::
      b64_decode_values rest
  | [a; b; c] => [a * 4 + b / 16; b mod 16 * 16 + c / 4]
  | [a; b] => [a * 4 + b / 16]
  | _ => []
  end.

(** Drops one or two final [=] from a string whose length is a multiple
    of 4. *)
Definition strip_padding (d : list Z) : list Z :=
  if (length d mod 4 =? 0)%nat then
    match rev d with
    | x :: y :: r =>
        if (x =? 61) && (y =? 61) then rev r
        else if x =? 61 then rev (y :: r) else d
    | [x] => if x =? 61 then [] else d
    | [] => d
    end
  else d.

(** [atob(s)] (forgiving base64 decode); [None] where it throws. *)
Definition atob (s : list Z) : option (list Z) :=
  let d := strip_padding (List.filter (fun c => negb (is_ascii_ws c)) s) in
  if (length d mod 4 =? 1)%nat then None
  else match b64_values d with
       | Some vs => Some (b64_decode_values vs)
       | None => None
       end.

(** [encrypt(text)]; [None] where [btoa] throws. *)
Definition encrypt (key text : list Z) : option (list Z) :=
  match text with
  | [] => Some []
  | _ => btoa (xor_from key 0 text)
  end.

(** [decrypt(encryptedText)]; a failing [atob] is caught and gives [""]. *)
Definition decrypt (key enc : list Z) : list Z :=
  match enc with
  | [] => []
  | _ => match atob enc with Some d => xor_from key 0 d | None => [] end
  end.

(** The white space of [trim], [parseInt] and the regular expression
    class [\s]: WhiteSpace and LineTerminator code units. *)
Definition is_js_ws (c : Z) : bool :=
  ((9 <=? c) && (c <=? 13)) || (c =? 32) || (c =? 160) || (c =? 5760) ||
  ((8192 <=? c) && (c <=? 8202)) || (c =? 8232) || (c =? 8233) || (c =? 8239) ||
  (c =? 8287) || (c =? 12288) || (c =? 65279).

Fixpoint drop_ws (s : list Z) : list Z :=
  match s with
  | c :: s' => if is_js_ws c then drop_ws s' else s
  | [] => []
  end.

(** The value of a digit character of [parseInt], any radix. *)
Definition digit_value (c : Z) : option Z :=
  if (48 <=? c) && (c <=? 57) then Some (c - 48)
  else if (97 <=? c) && (c <=? 122) then Some (c - 87)
  else if (65 <=? c) && (c <=? 90) then Some (c - 55)
  else None.

(** Reads the longest prefix of digits of radix [r]. *)
Fixpoint parse_digits (r : Z) (l : list Z) (acc : Z) : Z :=
  match l with
  | [] => acc
  | c :: l' =>
      match digit_value c with
      | Some v => if v <? r then parse_digits r l' (acc * r + v) else acc
      | None => acc
      end
  end.

(** [parseInt(s)]; [None] is NaN. *)
Definition parseInt (s : list Z) : option Z :=
  let s1 := drop_ws s in
  let '(sign, s2) :=
    match s1 with
    | c :: t => if c =? 45 then (-1, t) else if c =? 43 then (1, t) else (1, s1)
    | [] => (1, s1)
    end in
  let '(r, s3) :=
    match s2 with
    | c :: x :: t => if (c =? 48) && ((x =? 120) || (x =? 88)) then (16, t) else (10, s2)
    | _ => (10, s2)
    end in
  match s3 with
  | c :: _ =>
      match digit_value c with
      | Some v => if v <? r then Some (sign * parse_digits r s3 0) else None
      | None => None
      end
  | [] => None
  end.

Definition secure_key (key : string) : string := String.append "secure_" key.
Definition exp_key (key : string) : string :=
  String.append "secure_" (String.append key "_exp").

(** 24 hours, the lifetime [setItem] gives every entry. *)
Definition ITEM_LIFETIME : Z := 24 * 60 * 60 * 1000.

(** [setItem(key, value)] at time [now], [value] being the string stored
    ([value] itself, or [JSON.stringify(value)]) and [K] the key of the
    instance.  A throwing [encrypt] is caught: nothing is written. *)
Definition setItem (K : list Z) (ls : gmap string (list Z)) (key : string)
    (value : list Z) (now : Z) : gmap string (list Z) :=
  match encrypt K value with
  | None => ls
  | Some e => <[exp_key key := to_radix 10 (now + ITEM_LIFETIME)]> (<[secure_key key := e]> ls)
  end.

Definition removeItem (ls : gmap string (list Z)) (key : string) : gmap string (list Z) :=
  delete (exp_key key) (delete (secure_key key) ls).

(** What [getItem] returns: the parsed JSON value, or the string where
    [JSON.parse] throws. *)
Inductive item :=
| Parsed (v : json)
| Raw (s : list Z).

(** [getItem(key)] at time [now]; [json_parse] is [JSON.parse] ([None]
    where it throws).  The result [None] is [null]. *)
Definition getItem (K : list Z) (json_parse : list Z -> option json)
    (ls : gmap string (list Z)) (key : string) (now : Z)
    : gmap string (list Z) * option item :=
  let expired :=
    match ls !! exp_key key with
    | Some ((_ :: _) as e) => match parseInt e with Some x => now >? x | None => false end
    | _ => false
    end in
  if expired then (removeItem ls key, None)
  else
    match ls !! secure_key key with
    | Some ((_ :: _) as enc) =>
        let d := decrypt K enc in
        (ls, Some (match json_parse d with Some v => Parsed v | None => Raw d end))
    | _ => (ls, None)
    end.

(** [isTokenExpired(key)] at time [now]: an entry without expiration
    counts as expired. *)
Definition isTokenExpired (ls : gmap string (list Z)) (key : string) (now : Z) : bool :=
  match ls !! exp_key key with
  | Some ((_ :: _) as e) => match parseInt e with Some x => now >? x | None => false end
  | _ => true
  end.


(* ------------------------------------------------------------------ *)
(** ** Query strings ([URLSearchParams]) *)

Definition hex_digit (n : nat) : ascii :=
  ascii_of_nat (if Nat.ltb n 10 then 48 + n else 55 + n)%nat.

(** One UTF-8 byte in the application/x-www-form-urlencoded serializer:
    space becomes [+], ASCII alphanumerics and [* - . _] stay, any other
    byte is [%XX]. *)
Definition form_byte (b : nat) : string :=
  if Nat.eqb b 32 then String (ascii_of_nat 43) EmptyString
  else if (Nat.leb 48 b && Nat.leb b 57) || (Nat.leb 65 b && Nat.leb b 90) ||
          (Nat.leb 97 b && Nat.leb b 122) ||
          Nat.eqb b 42 || Nat.eqb b 45 || Nat.eqb b 46 || Nat.eqb b 95
  then String (ascii_of_nat b) EmptyString
  else String (ascii_of_nat 37)
         (String (hex_digit (b / 16)) (String (hex_digit (b mod 16)) EmptyString)).

(** A character of a model string is the code point U+0000..U+00FF;
    from U+0080 on it takes two bytes in UTF-8. *)
Definition form_char (c : ascii) : string :=
  let n := nat_of_ascii c in
  if Nat.ltb n 128 then form_byte n
  else String.append (form_byte (192 + n / 64)) (form_byte (128 + n mod 64)).

Fixpoint form_encode (s : string) : string :=
  match s with
  | EmptyString => EmptyString
  | String c s' => String.append (form_char c) (form_encode s')
  end.

(** [queryParams.toString()]: [name=value] pairs joined by [&]. *)
Fixpoint params_to_string (ps : list (string * string)) : string :=
  match ps with
  | [] => EmptyString
  | (k, v) :: ps' =>
      let kv := String.append (form_encode k) (String.append "=" (form_encode v)) in
      match ps' with
      | [] => kv
      | _ => String.append kv (String.append "&" (params_to_string ps'))
      end
  end.

(** [`${base}${queryString ? `?${queryString}` : ""}`] *)
Definition with_query (base : string) (ps : list (string * string)) : string :=
  let q := params_to_string ps in
  if String.eqb q "" then base else String.append base (String.append "?" q).

(** [o.k] on an argument object, [undefined] ([JNull]) when absent. *)
Definition field (o : list (string * json)) (k : string) : json :=
  match obj_get k o with Some v => v | None => JNull end.

(** [if (o.k) queryParams.append(name, o.k)] *)
Definition append_truthy (o : list (string * json)) (k name : string)
    (ps : list (string * string)) : list (string * string) :=
  if truthy (field o k) then ps ++ [(name, js_to_string (field o k))] else ps.

(** [if (o.k !== undefined) queryParams.append(k, o.k)] *)
Definition append_defined (o : list (string * json)) (k : string)
    (ps : list (string * string)) : list (string * string) :=
  match obj_get k o with Some v => ps ++ [(k, js_to_string v)] | None => ps end.

(* ------------------------------------------------------------------ *)
(** ** api/expenseApi.js and api/analyticsApi.js *)

(** What an API function gives its caller: a value, the rejection of
    [apiConfig.get], or a [TypeError] thrown while reading the response. *)
Inductive api_result :=
| ApiOk (v : json)
| ApiRejected (e : err)
| ApiTypeError.

(** [const response = await apiConfig.get(url); return response.data;] *)
Definition get_data (st : dstate) (url : string) (now : Z) (net : network)
  : dstate * api_result :=
  let d := dispatch st GET url now net in
  (d_state d, match d_result d with
              | Resolved r => ApiOk (rdata r)
              | Rejected e => ApiRejected e
              end).

(** The query of [getExpenses(filters)], [filters] being an object. *)
Definition expenses_params (filters : list (string * json)) : list (string * string) :=
  let ps := append_truthy filters "startDate" "startDate" [] in
  let ps := append_truthy filters "endDate" "endDate" ps in
  let ps := append_truthy filters "categoryId" "category" ps in
  let ps := append_truthy filters "category" "category" ps in
  let ps := append_truthy filters "status" "status" ps in
  let ps := append_truthy filters "filterStatus" "status" ps in
  let ps := append_truthy filters "page" "page" ps in
  let ps := append_truthy filters "limit" "limit" ps in
  let ps := if truthy (field filters "sort")
            then ps ++ [("sort", js_to_string (field filters "sort"))]
            else ps ++ [("sort", "-createdAt")] in
  append_truthy filters "select" "select" ps.

Definition getExpenses_url (filters : list (string * json)) : string :=
  with_query "/expenses" (expenses_params filters).

Definition getExpenses (st : dstate) (filters : list (string * json)) (now : Z)
    (net : network) : dstate * api_result :=
  get_data st (getExpenses_url filters) now net.

(** The object [getExpenseById] builds from [response.data]; [ApiTypeError] is
    the [TypeError] of reading [.data] on [null]. *)
Definition expense_view (data : json) : api_result :=
  match data with
  | JNull => ApiTypeError
  | _ =>
      let e := opt_field "data" data in
      if truthy e then
        ApiOk (JObj
          (obj_set "expenseDate" (js_or (opt_field "journeyDate" e) (opt_field "expenseDate" e))
          (obj_set "categoryId"
             (js_or (opt_field "_id" (opt_field "category" e)) (opt_field "categoryId" e))
          (obj_set "endLocation"
             (js_or (opt_field "destinationPoint" e) (opt_field "endLocation" e))
          (obj_set "startLocation"
             (js_or (opt_field "startingPoint" e) (opt_field "startLocation" e))
          (obj_set "distanceInKm" (opt_field "distance" e) (spread_fields e)))))))
      else ApiOk data
  end.

Definition getExpenseById (st : dstate) (id : string) (now : Z) (net : network)
  : dstate * api_result :=
  let d := dispatch st GET (String.append "/expenses/" id) now net in
  (d_state d, match d_result d with
              | Resolved r => expense_view (rdata r)
              | Rejected e => ApiRejected e
              end).

Definition categories_params (options : list (string * json)) : list (string * string) :=
  let ps := append_truthy options "page" "page" [] in
  let ps := append_truthy options "limit" "limit" ps in
  let ps := append_truthy options "sort" "sort" ps in
  let ps := append_truthy options "select" "select" ps in
  let ps := append_defined options "isActive" ps in
  let ps := append_truthy options "search" "search" ps in
  let ps := append_defined options "hasBudget" ps in
  let ps := append_defined options "includeUsage" ps in
  let ps := append_defined options "includeBudgetAlerts" ps in
  let ps := append_truthy options "includeRecentExpenses" "includeRecentExpenses" ps in
  let ps := append_defined options "includeExpenseCounts" ps in
  let ps := append_truthy options "period" "period" ps in
  let ps := append_defined options "withUserUsage" ps in
  append_defined options "sortByUserUsage" ps.

Definition categories_url (options : list (string * json)) : string :=
  with_query "/categories" (categories_params options).

Definition is_array (v : json) : bool := match v with JArr _ => true | _ => false end.

(** The object [getExpenseCategories] builds from [response.data];
    [has_id] is [options.id] being truthy. *)
Definition categories_result (has_id : bool) (data : json) : api_result :=
  match data with
  | JNull => ApiTypeError
  | _ =>
      let category := js_or (opt_field "data" data) data in
      if has_id && negb (is_array category) then
        ApiOk (JObj [("categories", JArr [category]); ("pagination", JNull);
                     ("totalCount", JNum 1);
                     ("summary", js_or (opt_field "summary" data) JNull)])
      else
        let categories :=
          if truthy (opt_field "data" data) then
            match opt_field "data" data with JArr l => l | d => [d] end
          else match data with JArr l => l | _ => [data] end in
        ApiOk (JObj [("categories", JArr categories);
                     ("pagination", js_or (opt_field "pagination" data) JNull);
                     ("totalCount", js_or (opt_field "totalCount" data)
                                          (JNum (Z.of_nat (length categories))));
                     ("summary", js_or (opt_field "summary" data) JNull)])
  end.

Definition getExpenseCategories (st : dstate) (options : list (string * json)) (now : Z)
    (net : network) : dstate * api_result :=
  let d := dispatch st GET (categories_url options) now net in
  (d_state d, match d_result d with
              | Resolved r => categories_result (truthy (field options "id")) (rdata r)
              | Rejected e => ApiRejected e
              end).

Definition time_summary_url (params : list (string * json)) : string :=
  with_query "/analytics/expenses/time-summary"
    (append_truthy params "userId" "userId"
      (append_truthy params "year" "year"
        (append_truthy params "periodType" "periodType" []))).

Definition period_detail_url (params : list (string * json)) : string :=
  with_query "/analytics/expenses/period-detail"
    (append_truthy params "userId" "userId"
      (append_truthy params "year" "year"
        (append_truthy params "periodValue" "periodValue"
          (append_truthy params "periodType" "periodType" [])))).

Definition category_breakdown_url (params : list (string * json)) : string :=
  with_query "/analytics/expenses/category-breakdown"
    (append_truthy params "userId" "userId"
      (append_truthy params "year" "year"
        (append_truthy params "periodValue" "periodValue"
          (append_truthy params "periodType" "periodType" [])))).

Definition trends_url (params : list (string * json)) : string :=
  with_query "/analytics/expenses/trends"
    (append_truthy params "userId" "userId"
      (append_truthy params "year" "year"
        (append_truthy params "periodType" "periodType" []))).

Definition yearly_comparison_url (params : list (string * json)) : string :=
  with_query "/analytics/expenses/yearly-comparison"
    (append_truthy params "userId" "userId"
      (append_truthy params "previousYear" "previousYear"
        (append_truthy params "currentYear" "currentYear" []))).

Definition getTimePeriodSummary st params now net := get_data st (time_summary_url params) now net.
Definition getPeriodDetail st params now net := get_data st (period_detail_url params) now net.
Definition getCategoryBreakdown st params now net := get_data st (category_breakdown_url params) now net.
Definition getExpenseTrends st params now net := get_data st (trends_url params) now net.
Definition getYearlyComparison st params now net := get_data st (yearly_comparison_url params) now net.

(** Slash-free strings and the fallback keys. *)
Fixpoint slash_free (s : string) : bool :=
  match s with
  | EmptyString => true
  | String c s' => negb (Ascii.eqb c "/"%char) && slash_free s'
  end.

(** [s] and [k] differ at a position both have. *)
Fixpoint mismatch (s k : string) : bool :=
  match s, k with
  | String c s', String d k' => negb (Ascii.eqb d c) || mismatch s' k'
  | _, _ => false
  end.

Fixpoint all_mismatch (a k : string) : bool :=
  match a with
  | EmptyString => true
  | String _ a' => mismatch a k && all_mismatch a' k
  end.

(** The five GET functions of analyticsApi.js and their URLs. *)
Definition analytics_calls
  : list ((dstate -> list (string * json) -> Z -> network -> dstate * api_result) *
          (list (string * json) -> string)) :=
  [(getTimePeriodSummary, time_summary_url); (getPeriodDetail, period_detail_url);
   (getCategoryBreakdown, category_breakdown_url); (getExpenseTrends, trends_url);
   (getYearlyComparison, yearly_comparison_url)].


(* ------------------------------------------------------------------ *)
(** ** [sanitizeData] (utils/logger.js) *)

(** ASCII lower case; the case-insensitive match of an ASCII pattern
    ([/token/i] ...) folds no other character of U+0000..U+00FF onto an
    ASCII letter. *)
Definition ascii_lower (c : ascii) : ascii :=
  let n := nat_of_ascii c in
  if Nat.leb 65 n && Nat.leb n 90 then ascii_of_nat (n + 32) else c.

Fixpoint lower (s : string) : string :=
  match s with
  | EmptyString => EmptyString
  | String c s' => String (ascii_lower c) (lower s')
  end.

Definition SENSITIVE_PATTERNS : list string :=
  ["token"; "password"; "secret"; "key"; "auth"; "bearer"; "authorization"; "credential"].

(** [SENSITIVE_PATTERNS.some(pattern => pattern.test(key))] *)
Definition is_sensitive (key : string) : bool :=
  existsb (fun p => includes (lower key) p) SENSITIVE_PATTERNS.

Definition REDACTED : json := JStr "[REDACTED]".

Fixpoint sanitizeData (data : json) : json :=
  match data with
  | JArr l => JArr (map sanitizeData l)
  | JObj fs =>
      JObj (map (fun kv : string * json =>
                   let '(key, value) := kv in
                   (key, if is_sensitive key then REDACTED
                         else match value with
                              | JArr _ | JObj _ => sanitizeData value
                              | _ => value
                              end)) fs)
  | _ => data
  end.

Definition is_redacted (v : json) : bool :=
  match v with JStr s => String.eqb s "[REDACTED]" | _ => false end.

(** Every property with a sensitive name, at any depth, holds
    ["[REDACTED]"]. *)
Fixpoint redacted (v : json) : bool :=
  match v with
  | JArr l => forallb redacted l
  | JObj fs =>
      forallb (fun kv : string * json =>
                 (if is_sensitive kv.1 then is_redacted kv.2 else true) &&
                 redacted kv.2) fs
  | _ => true
  end.

(** No property name at any depth is sensitive. *)
Fixpoint no_sensitive_keys (v : json) : bool :=
  match v with
  | JArr l => forallb no_sensitive_keys l
  | JObj fs =>
      forallb (fun kv : string * json => negb (is_sensitive kv.1) && no_sensitive_keys kv.2) fs
  | _ => true
  end.

(** * Lemmas on the embedding *)

Lemma throttle_breakers st m p now :
  circuitBreakers (fst (throttle st m p now)) = circuitBreakers st.
Proof. unfold throttle, deprecation_check. repeat case_match; reflexivity. Qed.

Lemma throttle_cache st m p now :
  responseCache (fst (throttle st m p now)) = responseCache st.
Proof. unfold throttle, deprecation_check. repeat case_match; reflexivity. Qed.

Lemma request_interceptor_cache st m p now :
  responseCache (fst (request_interceptor st m p now)) = responseCache st.
Proof.
  unfold request_interceptor, getCircuitBreaker.
  repeat case_match; simplify_eq/=; rewrite ?throttle_cache; reflexivity.
Qed.

Lemma request_interceptor_breaker st m p now :
  circuitBreakers (fst (request_interceptor st m p now)) !! p =
  Some (match circuitBreakers st !! p with
        | Some b =>
            if shouldAttemptReset b now
            then mkBreaker HALF_OPEN (failureCount b) (lastFailureTime b) (lastSuccessTime b)
            else b
        | None => initial_breaker
        end).
Proof.
  unfold request_interceptor, getCircuitBreaker.
  destruct (circuitBreakers st !! p) as [b|] eqn:Hb; simpl.
  - destruct (state b) eqn:Hs; simpl.
    + unfold shouldAttemptReset. rewrite Hs. simpl. rewrite throttle_breakers. simpl. done.
    + destruct (shouldAttemptReset b now) eqn:Hr.
      * rewrite throttle_breakers. simpl. by rewrite lookup_insert_eq.
      * case_match; simpl; done.
    + unfold shouldAttemptReset. rewrite Hs. simpl. rewrite throttle_breakers. simpl. done.
  - rewrite throttle_breakers. simpl. by rewrite lookup_insert_eq.
Qed.

Lemma deprecation_check_proceed p :
  deprecation_check p = Proceed <-> p <> DEPRECATED_ENDPOINT.
Proof.
  unfold deprecation_check. destruct (String.eqb_spec p DEPRECATED_ENDPOINT); split; congruence.
Qed.

Lemma throttle_proceed st m p now :
  snd (throttle st m p now) = Proceed <->
  throttled (recentCalls st) p now = false /\ p <> DEPRECATED_ENDPOINT.
Proof.
  unfold throttle, throttled. rewrite <- deprecation_check_proceed.
  destruct (recentCalls st !! p) as [w|]; simpl; [|tauto].
  destruct (now - time w <? THROTTLE_WINDOW); simpl; [|tauto].
  destruct (count w + 1 >? MAX_CALLS_PER_WINDOW); simpl; [|tauto].
  split; [|intros [? _]; discriminate].
  repeat case_match; discriminate.
Qed.

Lemma request_interceptor_proceed st m p now :
  snd (request_interceptor st m p now) = Proceed <->
  short_circuits (circuitBreakers st) p now = false /\
  throttled (recentCalls st) p now = false /\ p <> DEPRECATED_ENDPOINT.
Proof.
  unfold request_interceptor, getCircuitBreaker, short_circuits.
  destruct (circuitBreakers st !! p) as [b|]; simpl.
  - destruct (state b) eqn:Hs; simpl.
    + rewrite throttle_proceed. simpl. tauto.
    + destruct (shouldAttemptReset b now); simpl.
      * rewrite throttle_proceed. simpl. tauto.
      * split; [case_match; discriminate | intros [? _]; discriminate].
    + rewrite throttle_proceed. simpl. tauto.
  - rewrite throttle_proceed. simpl. tauto.
Qed.

(** A request that goes to the network finds a breaker that is not OPEN. *)
Lemma proceed_breaker st m p now st1 :
  request_interceptor st m p now = (st1, Proceed) ->
  exists b, circuitBreakers st1 !! p = Some b /\ state b <> OPEN /\
            failureCount b = fc_of (circuitBreakers st) p.
Proof.
  intros H.
  pose proof (request_interceptor_breaker st m p now) as Hb. rewrite H in Hb. simpl in Hb.
  assert (Hp : snd (request_interceptor st m p now) = Proceed) by (rewrite H; done).
  apply request_interceptor_proceed in Hp as [Hs _].
  unfold short_circuits in Hs. unfold fc_of.
  destruct (circuitBreakers st !! p) as [b|]; eexists; split; [exact Hb| |exact Hb|].
  - destruct (shouldAttemptReset b now) eqn:Hr; simpl; [split; [discriminate|done]|].
    split; [|done]. destruct (state b); simpl in Hs; congruence.
  - simpl. split; [discriminate|done].
Qed.

Lemma record_failure_has p bs t o :
  p <> "" -> is_Some (record_failure bs p t o !! p).
Proof.
  intros Hp. unfold record_failure, getCircuitBreaker.
  destruct (String.eqb_spec p ""); [congruence|].
  destruct (bs !! p) eqn:Hb; simpl; case_match;
    rewrite ?lookup_insert_eq; eauto.
Qed.

Lemma reject_with_state st p o :
  (p = "" \/ is_Some (circuitBreakers st !! p)) -> fst (reject_with st p o) = st.
Proof.
  intros Hp. unfold reject_with, getCircuitBreaker.
  destruct (String.eqb_spec p ""); [done|].
  destruct Hp as [|[b Hb]]; [congruence|]. rewrite Hb. simpl.
  by destruct st.
Qed.

(** The rejection handler of a live error writes the breaker only. *)
Lemma on_live_error_state st m p t1 o1 net :
  d_state (on_live_error st m p t1 o1 net) =
  set_breakers st (record_failure (circuitBreakers st) p t1 o1).
Proof.
  unfold on_live_error.
  set (st1 := set_breakers st (record_failure (circuitBreakers st) p t1 o1)).
  assert (Hr : forall o, fst (reject_with st1 p o) = st1).
  { intros o. apply reject_with_state.
    destruct (String.eqb_spec p ""); [by left|right].
    by apply record_failure_has. }
  destruct (if is_5xx o1 then _ else _) as [[tk ok] calls].
  destruct ok as [s d|]; repeat case_match; simpl; try reflexivity;
    match goal with H : reject_with _ _ ?o = _ |- _ =>
      pose proof (Hr o) as Hx; rewrite H in Hx; exact Hx end.
Qed.

Lemma on_live_error_trace st m p t1 o1 net :
  let R := if is_5xx o1 then retryRequest net RETRY_ATTEMPTS 1 1 else ((t1, o1), 1%nat) in
  d_last (on_live_error st m p t1 o1 net) = Some (fst R) /\
  d_calls (on_live_error st m p t1 o1 net) = snd R.
Proof.
  intros R. unfold on_live_error. fold R.
  destruct R as [[tk ok] calls]; simpl.
  destruct ok as [s d|]; repeat case_match; simpl; auto;
    match goal with H : reject_with _ _ _ = _ |- _ => rewrite H; simpl; auto end.
Qed.

Lemma getCircuitBreaker_fc bs p q :
  fc_of (fst (getCircuitBreaker bs p)) q = fc_of bs q.
Proof.
  unfold getCircuitBreaker, fc_of. destruct (bs !! p) eqn:Hb; simpl; [done|].
  destruct (decide (p = q)) as [<-|Hne].
  - by rewrite lookup_insert_eq, Hb.
  - by rewrite lookup_insert_ne.
Qed.

Lemma getCircuitBreaker_id bs p b :
  bs !! p = Some b -> getCircuitBreaker bs p = (bs, b).
Proof. intros Hb. unfold getCircuitBreaker. by rewrite Hb. Qed.

Lemma record_failure_fc bs p t o :
  p <> "" -> is_server_error o || is_network_error o = true ->
  fc_of (record_failure bs p t o) p = fc_of bs p + 1.
Proof.
  intros Hp Ho. unfold record_failure.
  destruct (String.eqb_spec p ""); [congruence|].
  rewrite <- (getCircuitBreaker_fc bs p p).
  destruct (getCircuitBreaker bs p) as [bs1 b] eqn:Hg. rewrite Ho.
  unfold fc_of at 1. rewrite lookup_insert_eq. simpl.
  unfold getCircuitBreaker in Hg. unfold fc_of.
  destruct (bs !! p) eqn:Hb; injection Hg as <- <-; [by rewrite Hb|by rewrite lookup_insert_eq].
Qed.

(** A breaker that exists is left alone by a failure that is neither a
    server nor a network error. *)
Lemma record_failure_other bs p t o b :
  bs !! p = Some b -> is_server_error o || is_network_error o = false ->
  record_failure bs p t o = bs.
Proof.
  intros Hb Ho. unfold record_failure.
  destruct (String.eqb p ""); [done|]. rewrite (getCircuitBreaker_id bs p b Hb), Ho. done.
Qed.

Lemma request_interceptor_fc st m p now :
  fc_of (circuitBreakers (fst (request_interceptor st m p now))) p = fc_of (circuitBreakers st) p.
Proof.
  unfold fc_of at 1. rewrite request_interceptor_breaker. unfold fc_of.
  destruct (circuitBreakers st !! p); [case_match|]; done.
Qed.

Lemma obj_get_set_eq k v fs : obj_get k (obj_set k v fs) = Some v.
Proof.
  induction fs as [|[k' v'] fs IH]; simpl.
  - by rewrite String.eqb_refl.
  - destruct (String.eqb_spec k k') as [<-|Hne]; simpl.
    + by rewrite String.eqb_refl.
    + apply String.eqb_neq in Hne. by rewrite Hne.
Qed.

Lemma obj_get_set_ne k k' v fs : k <> k' -> obj_get k (obj_set k' v fs) = obj_get k fs.
Proof.
  intros Hne. induction fs as [|[k'' v''] fs IH]; simpl.
  - apply String.eqb_neq in Hne. by rewrite Hne.
  - destruct (String.eqb_spec k' k'') as [<-|Hne']; simpl.
    + apply String.eqb_neq in Hne. by rewrite Hne.
    + by rewrite IH.
Qed.

Lemma cached_view_fromCache e now : json_get "fromCache" (cached_view e now) = Some (JBool true).
Proof. simpl. rewrite obj_get_set_ne by discriminate. apply obj_get_set_eq. Qed.

(** When the breaker does not answer the request, the interceptor goes on
    with the throttling block, on the same windows and cache. *)
Lemma request_interceptor_throttle st m p now :
  short_circuits (circuitBreakers st) p now = false ->
  exists bs, request_interceptor st m p now = throttle (set_breakers st bs) m p now.
Proof.
  intros Hs. unfold request_interceptor, getCircuitBreaker. unfold short_circuits in Hs.
  destruct (circuitBreakers st !! p) as [b|]; simpl; [|eauto].
  destruct (state b) eqn:Hst; simpl in *; eauto.
  destruct (shouldAttemptReset b now); simpl in *; [eauto|discriminate].
Qed.

Lemma throttle_admitted st m p now :
  throttled (recentCalls st) p now = false ->
  snd (throttle st m p now) = deprecation_check p.
Proof.
  unfold throttled, throttle. intros Ht.
  destruct (recentCalls st !! p) as [w|]; simpl; [|done].
  destruct (now - time w <? THROTTLE_WINDOW); simpl in *; [|done].
  rewrite Ht. done.
Qed.

Lemma record_failure_lookup bs p t o b :
  p <> "" -> bs !! p = Some b -> is_server_error o || is_network_error o = true ->
  record_failure bs p t o !! p =
  Some (mkBreaker (if failureCount b + 1 >=? CIRCUIT_BREAKER_THRESHOLD then OPEN else state b)
                  (failureCount b + 1) (Some t) (lastSuccessTime b)).
Proof.
  intros Hp Hb Ho. unfold record_failure.
  destruct (String.eqb_spec p ""); [congruence|].
  rewrite (getCircuitBreaker_id bs p b Hb), Ho. by rewrite lookup_insert_eq.
Qed.

Lemma success_handler_breaker st m p t s d b :
  circuitBreakers st !! p = Some b ->
  circuitBreakers (fst (success_handler st m p t s d)) !! p =
  Some (match state b with
        | OPEN => b
        | _ => mkBreaker CLOSED 0 (lastFailureTime b) (Some t)
        end).
Proof.
  intros Hb. unfold success_handler. rewrite (getCircuitBreaker_id _ _ _ Hb). simpl.
  destruct (state b) eqn:Hs; simpl; rewrite ?lookup_insert_eq; rewrite ?Hs; done.
Qed.

Lemma success_handler_cache st m p t s d :
  responseCache (fst (success_handler st m p t s d)) =
  if method_eqb m GET && truthy d && (s =? 200)
  then <[cache_key m p := mkCentry d t]> (responseCache st)
  else responseCache st.
Proof. unfold success_handler. destruct (getCircuitBreaker _ _). reflexivity. Qed.

Lemma success_handler_calls st m p t s d :
  recentCalls (fst (success_handler st m p t s d)) =
  match recentCalls st !! p with
  | Some w => <[p := mkWindow (time w) (count w) d]> (recentCalls st)
  | None => recentCalls st
  end.
Proof. unfold success_handler. destruct (getCircuitBreaker _ _). reflexivity. Qed.

Lemma request_interceptor_pair st m p now :
  snd (request_interceptor st m p now) = Proceed ->
  request_interceptor st m p now = (fst (request_interceptor st m p now), Proceed).
Proof. destruct (request_interceptor st m p now); simpl; congruence. Qed.

(** The state left by the request interceptor does not depend on the
    method: only the thrown payload reads the [METHOD:path] cache key. *)
Lemma request_interceptor_state_method st m1 m2 p now :
  fst (request_interceptor st m1 p now) = fst (request_interceptor st m2 p now).
Proof.
  unfold request_interceptor, throttle, getCircuitBreaker.
  repeat (case_match; simpl); reflexivity.
Qed.

Lemma success_handler_method st m1 m2 p t s d :
  circuitBreakers (fst (success_handler st m1 p t s d)) =
    circuitBreakers (fst (success_handler st m2 p t s d)) /\
  recentCalls (fst (success_handler st m1 p t s d)) =
    recentCalls (fst (success_handler st m2 p t s d)).
Proof. unfold success_handler. destruct (getCircuitBreaker _ _). split; reflexivity. Qed.

Lemma insert_is_Some {V} (bs : gmap string V) k v q :
  is_Some (bs !! q) -> is_Some (<[k := v]> bs !! q).
Proof. intros H. apply lookup_insert_is_Some'. by right. Qed.

Lemma getCircuitBreaker_mono bs p q :
  is_Some (bs !! q) -> is_Some (fst (getCircuitBreaker bs p) !! q).
Proof. unfold getCircuitBreaker. case_match; simpl; [done|apply insert_is_Some]. Qed.

Lemma getCircuitBreaker_has bs p : is_Some (fst (getCircuitBreaker bs p) !! p).
Proof. unfold getCircuitBreaker. case_match; simpl; [by eauto|by rewrite lookup_insert_eq; eauto]. Qed.

Lemma request_interceptor_mono st m p now q :
  is_Some (circuitBreakers st !! q) ->
  is_Some (circuitBreakers (fst (request_interceptor st m p now)) !! q).
Proof.
  intros H. unfold request_interceptor.
  pose proof (getCircuitBreaker_mono (circuitBreakers st) p q H) as H1.
  destruct (getCircuitBreaker (circuitBreakers st) p) as [bs b]. simpl in H1.
  destruct (state b); simpl; [rewrite throttle_breakers; done| |rewrite throttle_breakers; done].
  case_match; [rewrite throttle_breakers; simpl; by apply insert_is_Some|].
  case_match; done.
Qed.

Lemma record_failure_mono bs p t o q :
  is_Some (bs !! q) -> is_Some (record_failure bs p t o !! q).
Proof.
  intros H. unfold record_failure. case_match; [done|].
  pose proof (getCircuitBreaker_mono bs p q H) as H1.
  destruct (getCircuitBreaker bs p) as [bs1 b]. simpl in H1.
  case_match; [by apply insert_is_Some|done].
Qed.

Lemma success_handler_mono st m p t s d q :
  is_Some (circuitBreakers st !! q) ->
  is_Some (circuitBreakers (fst (success_handler st m p t s d)) !! q).
Proof.
  intros H. unfold success_handler.
  pose proof (getCircuitBreaker_mono (circuitBreakers st) p q H) as H1.
  destruct (getCircuitBreaker (circuitBreakers st) p) as [bs b]. simpl in H1.
  simpl. destruct (state b); [by apply insert_is_Some|done|by apply insert_is_Some].
Qed.

(** Whatever path a dispatch takes, a breaker that existed before still
    exists afterwards. *)
Lemma dispatch_mono st m p now net q :
  is_Some (circuitBreakers (fst (request_interceptor st m p now)) !! q) ->
  is_Some (circuitBreakers (d_state (dispatch st m p now net)) !! q).
Proof.
  intros H. unfold dispatch.
  destruct (request_interceptor st m p now) as [st1 pr]. simpl in H.
  destruct pr; [|done].
  destruct (net 0%nat) as [t1 o1].
  assert (Hl : is_Some (circuitBreakers (d_state (on_live_error st1 m p t1 o1 net)) !! q)).
  { rewrite on_live_error_state. simpl. by apply record_failure_mono. }
  destruct o1 as [s d|]; [|done].
  destruct (is_success (Resp s d)); [|done].
  pose proof (success_handler_mono st1 m p t1 s d q H) as Hs.
  destruct (success_handler st1 m p t1 s d). done.
Qed.

Lemma dispatch_method st m1 m2 p now net :
  circuitBreakers (d_state (dispatch st m1 p now net)) =
    circuitBreakers (d_state (dispatch st m2 p now net)) /\
  recentCalls (d_state (dispatch st m1 p now net)) =
    recentCalls (d_state (dispatch st m2 p now net)).
Proof.
  pose proof (request_interceptor_state_method st m1 m2 p now) as Hst.
  pose proof (request_interceptor_proceed st m1 p now) as P1.
  pose proof (request_interceptor_proceed st m2 p now) as P2.
  unfold dispatch.
  destruct (request_interceptor st m1 p now) as [st1 pr1].
  destruct (request_interceptor st m2 p now) as [st1' pr2].
  simpl in Hst, P1, P2. subst st1'.
  destruct pr1, pr2; simpl.
  - destruct (net 0%nat) as [t1 o1].
    destruct o1 as [s d|].
    + destruct (is_success (Resp s d)).
      * destruct (success_handler_method st1 m1 m2 p t1 s d) as [Hb Hc].
        destruct (success_handler st1 m1 p t1 s d), (success_handler st1 m2 p t1 s d).
        simpl in *. split; assumption.
      * rewrite !on_live_error_state. split; reflexivity.
    + rewrite !on_live_error_state. split; reflexivity.
  - exfalso. destruct P1 as [P1 _]. specialize (P1 eq_refl). apply P2 in P1. discriminate.
  - exfalso. destruct P2 as [P2 _]. specialize (P2 eq_refl). apply P1 in P2. discriminate.
  - split; reflexivity.
Qed.

(* ================================================================== *)
(** * The claims *)

(** C3 (as amended): for a non-empty path, a dispatch whose live call
    ends, after the internal retries, in a server error (5xx) or a
    transport failure increments the path's breaker [failureCount] by
    exactly one, whatever the number of retries. *)
Theorem C3_failure_counted_once st m p now net st1 tk ok :
  p <> "" ->
  request_interceptor st m p now = (st1, Proceed) ->
  d_last (dispatch st m p now net) = Some (tk, ok) ->
  is_5xx ok || is_network_error ok = true ->
  fc_of (circuitBreakers (d_state (dispatch st m p now net))) p =
  fc_of (circuitBreakers st) p + 1.
Proof.
  intros Hp Hri Hlast Hok.
  rewrite <- (request_interceptor_fc st m p now), Hri. simpl.
  unfold dispatch in *. rewrite Hri in *.
  destruct (net 0%nat) as [t1 o1].
  assert (Hfail : is_server_error o1 || is_network_error o1 = true ->
                  fc_of (circuitBreakers (d_state (on_live_error st1 m p t1 o1 net))) p =
                  fc_of (circuitBreakers st1) p + 1).
  { intros Ho. rewrite on_live_error_state. simpl. by apply record_failure_fc. }
  assert (Hlive : d_last (on_live_error st1 m p t1 o1 net) = Some (tk, ok) ->
                  is_server_error o1 || is_network_error o1 = true).
  { intros Hl. destruct (on_live_error_trace st1 m p t1 o1 net) as [Ht _].
    rewrite Hl in Ht. destruct (is_5xx o1) eqn:H5.
    - destruct o1; simpl in *; [|done]. apply andb_prop in H5 as [H5 _]. by rewrite H5.
    - injection Ht as -> ->. rewrite H5 in Hok. destruct o1; simpl in *; done. }
  destruct o1 as [s d|].
  - destruct (is_success (Resp s d)) eqn:Hs.
    + destruct (success_handler st1 m p t1 s d). simpl in Hlast.
      injection Hlast as <- <-. exfalso. simpl in Hs, Hok. rewrite orb_false_r in Hok.
      apply andb_prop in Hok as [Ho _]. apply andb_prop in Hs as [_ Hs2].
      apply Z.leb_le in Ho. apply Z.ltb_lt in Hs2. lia.
    + apply Hfail, Hlive, Hlast.
  - apply Hfail, Hlive, Hlast.
Qed.

(** C8: a client error (4xx) of the live call leaves the breakers exactly
    as the request interceptor left them (no [failureCount] increment, no
    [lastFailureTime] stamp, no state change) and is not retried: the
    dispatch makes a single network call. *)
Theorem C8_client_error_frame st m p now net st1 t1 s d :
  request_interceptor st m p now = (st1, Proceed) ->
  net 0%nat = (t1, Resp s d) ->
  400 <= s < 500 ->
  circuitBreakers (d_state (dispatch st m p now net)) = circuitBreakers st1 /\
  d_calls (dispatch st m p now net) = 1%nat.
Proof.
  intros Hri Hnet Hs.
  pose proof (request_interceptor_breaker st m p now) as Hb. rewrite Hri in Hb. simpl in Hb.
  unfold dispatch. rewrite Hri, Hnet.
  assert (Hsucc : is_success (Resp s d) = false).
  { simpl. destruct (s <? 300) eqn:E; [apply Z.ltb_lt in E; lia|]. by rewrite andb_false_r. }
  assert (H5 : is_5xx (Resp s d) = false).
  { simpl. destruct (500 <=? s) eqn:E; [apply Z.leb_le in E; lia|done]. }
  rewrite Hsucc. split.
  - rewrite on_live_error_state. simpl. eapply record_failure_other; [exact Hb|].
    simpl. destruct (500 <=? s) eqn:E; [apply Z.leb_le in E; lia|done].
  - destruct (on_live_error_trace st1 m p t1 (Resp s d) net) as [_ Hc].
    rewrite Hc. by rewrite H5.
Qed.

(** C3 counterexample: with the empty path [""] (the [if (endpoint)]
    guard of the rejection handler is false) a call failing with 503 on
    every attempt leaves the breaker's [failureCount] at 0. *)
Lemma C3_empty_path_not_counted :
  d_last (dispatch empty_state POST "" 0 (net_const 0 503 JNull)) = Some (3, Resp 503 JNull) /\
  fc_of (circuitBreakers (d_state (dispatch empty_state POST "" 0 (net_const 0 503 JNull)))) "" = 0.
Proof. vm_compute. split; reflexivity. Qed.

Lemma C3_witness :
  fc_of (circuitBreakers (d_state (dispatch empty_state POST "/expenses" 0 (net_const 0 503 JNull))))
        "/expenses" =
  fc_of (circuitBreakers empty_state) "/expenses" + 1.
Proof.
  apply (C3_failure_counted_once empty_state POST "/expenses" 0 (net_const 0 503 JNull)
           (fst (request_interceptor empty_state POST "/expenses" 0)) 3 (Resp 503 JNull)).
  - discriminate.
  - vm_compute. reflexivity.
  - vm_compute. reflexivity.
  - reflexivity.
Defined.

Lemma C8_witness :
  circuitBreakers (d_state (dispatch empty_state GET "/expenses" 0 (net_const 0 404 JNull))) =
  circuitBreakers (fst (request_interceptor empty_state GET "/expenses" 0)) /\
  d_calls (dispatch empty_state GET "/expenses" 0 (net_const 0 404 JNull)) = 1%nat.
Proof.
  apply (C8_client_error_frame empty_state GET "/expenses" 0 (net_const 0 404 JNull)
           (fst (request_interceptor empty_state GET "/expenses" 0)) 0 404 JNull).
  - vm_compute. reflexivity.
  - vm_compute. reflexivity.
  - lia.
Defined.

(** C5: a GET to a path whose breaker is OPEN and still in its 30 s
    cooldown, with a cache entry younger than the 5 min TTL, is answered
    with the cached payload tagged [fromCache: true] (status 200), without
    any network call and without touching the state. *)
Theorem C5_open_breaker_serves_cache st p now net b e :
  circuitBreakers st !! p = Some b ->
  state b = OPEN ->
  now - js_num (lastFailureTime b) <= CIRCUIT_BREAKER_TIMEOUT ->
  responseCache st !! cache_key GET p = Some e ->
  now - ctimestamp e < CACHE_TTL ->
  d_result (dispatch st GET p now net) =
    Resolved (mkResp (cached_view e now) (Some 200) (Some "OK (Cached)")) /\
  json_get "fromCache" (cached_view e now) = Some (JBool true) /\
  d_calls (dispatch st GET p now net) = 0%nat /\
  d_state (dispatch st GET p now net) = st.
Proof.
  intros Hb Hst Hcool He Httl.
  assert (Hr : shouldAttemptReset b now = false).
  { unfold shouldAttemptReset. rewrite Hst. simpl. rewrite Z.gtb_ltb. apply Z.ltb_ge. lia. }
  assert (Hc : getCachedResponse (responseCache st) (cache_key GET p) now = Some (cached_view e now)).
  { unfold getCachedResponse. rewrite He. apply Z.ltb_lt in Httl. by rewrite Httl. }
  unfold dispatch, request_interceptor. rewrite (getCircuitBreaker_id _ _ _ Hb), Hst, Hr.
  simpl. rewrite Hc. simpl.
  split; [done|]. split; [apply cached_view_fromCache|]. split; [done|]. by destruct st.
Qed.

(** C6 (as amended): a request that the breaker lets through and that is
    beyond the 10th of its 1 s window is not sent; it is answered from the
    cache when a valid entry exists, else from the window's
    [lastResponse] when that is truthy, else it is rejected with the
    cancellation error (no generic fallback data). *)
Theorem C6_throttled_resolution st m p now net w :
  short_circuits (circuitBreakers st) p now = false ->
  recentCalls st !! p = Some w ->
  now - time w < THROTTLE_WINDOW ->
  MAX_CALLS_PER_WINDOW < count w + 1 ->
  d_calls (dispatch st m p now net) = 0%nat /\
  d_result (dispatch st m p now net) =
    match getCachedResponse (responseCache st) (cache_key m p) now with
    | Some c => Resolved (mkResp c (Some 200) (Some "OK (Cached)"))
    | None =>
        if truthy (lastResponse w)
        then Resolved (mkResp (lastResponse w) (Some 200) (Some "OK (Throttled Cache)"))
        else Rejected (mkErr None true None None)
    end.
Proof.
  intros Hs Hw Hwin Hcnt.
  destruct (request_interceptor_throttle st m p now Hs) as [bs Hri].
  unfold dispatch. rewrite Hri. unfold throttle. simpl. rewrite Hw.
  apply Z.ltb_lt in Hwin. rewrite Hwin. simpl.
  assert (Hc : (count w + 1 >? MAX_CALLS_PER_WINDOW) = true) by (rewrite Z.gtb_ltb; apply Z.ltb_lt; lia).
  rewrite Hc.
  destruct (getCachedResponse (responseCache st) (cache_key m p) now); simpl; [done|].
  destruct (truthy (lastResponse w)); done.
Qed.

(** C6 counterexample: eleven [GET /expenses] at the same instant, the
    first ten answered 404 (nothing cached, no [lastResponse]): the 11th is
    rejected with the cancellation error instead of being resolved. *)
Lemma C6_eleventh_call_rejected :
  nth_error (snd (run empty_state eleven_rejected_gets)) 10 =
  Some (Rejected (mkErr None true None None)).
Proof. vm_compute. reflexivity. Qed.

Lemma C6_witness :
  d_calls (dispatch (fst (run empty_state (repeat (GET, "/expenses", 0, net_const 0 404 JNull) 10)))
                    GET "/expenses" 0 (net_const 0 404 JNull)) = 0%nat /\
  d_result (dispatch (fst (run empty_state (repeat (GET, "/expenses", 0, net_const 0 404 JNull) 10)))
                    GET "/expenses" 0 (net_const 0 404 JNull)) =
    Rejected (mkErr None true None None).
Proof.
  destruct (C6_throttled_resolution
              (fst (run empty_state (repeat (GET, "/expenses", 0, net_const 0 404 JNull) 10)))
              GET "/expenses" 0 (net_const 0 404 JNull) (mkWindow 0 10 JNull)) as [H1 H2].
  - vm_compute. reflexivity.
  - vm_compute. reflexivity.
  - vm_compute. reflexivity.
  - vm_compute. reflexivity.
  - split; [exact H1|]. rewrite H2. vm_compute. reflexivity.
Defined.

(** C10 (as amended): a request to ["/settings/defaults"], whatever its
    method, that the breaker does not answer itself and that is not
    throttled resolves to the fixed deprecation payload without a network
    call. *)
Theorem C10_deprecated_when_admitted st m now net :
  short_circuits (circuitBreakers st) DEPRECATED_ENDPOINT now = false ->
  throttled (recentCalls st) DEPRECATED_ENDPOINT now = false ->
  d_result (dispatch st m DEPRECATED_ENDPOINT now net) =
    Resolved (mkResp deprecated_payload None None) /\
  d_calls (dispatch st m DEPRECATED_ENDPOINT now net) = 0%nat.
Proof.
  intros Hs Ht.
  destruct (request_interceptor_throttle st m DEPRECATED_ENDPOINT now Hs) as [bs Hri].
  pose proof (throttle_admitted (set_breakers st bs) m DEPRECATED_ENDPOINT now Ht) as Hp.
  unfold dispatch. rewrite Hri.
  destruct (throttle (set_breakers st bs) m DEPRECATED_ENDPOINT now) as [st1 pr].
  simpl in Hp. subst pr. done.
Qed.

(** C10 counterexample: the 11th call to the deprecated endpoint within
    the same second is throttled and, with nothing cached, rejected. *)
Lemma C10_eleventh_call_rejected :
  nth_error (snd (run empty_state eleven_deprecated)) 10 =
  Some (Rejected (mkErr None true None None)).
Proof. vm_compute. reflexivity. Qed.

Lemma C10_witness :
  d_result (dispatch empty_state POST DEPRECATED_ENDPOINT 0 (net_const 0 200 sample_body)) =
    Resolved (mkResp deprecated_payload None None) /\
  d_calls (dispatch empty_state POST DEPRECATED_ENDPOINT 0 (net_const 0 200 sample_body)) = 0%nat.
Proof. apply C10_deprecated_when_admitted; reflexivity. Defined.

Lemma C5_witness :
  d_result (dispatch st_settings GET "/settings" 100 (net_const 100 503 JNull)) =
    Resolved (mkResp (cached_view (mkCentry sample_body 0) 100) (Some 200) (Some "OK (Cached)")) /\
  json_get "fromCache" (cached_view (mkCentry sample_body 0) 100) = Some (JBool true) /\
  d_calls (dispatch st_settings GET "/settings" 100 (net_const 100 503 JNull)) = 0%nat /\
  d_state (dispatch st_settings GET "/settings" 100 (net_const 100 503 JNull)) = st_settings.
Proof.
  apply (C5_open_breaker_serves_cache st_settings "/settings" 100 (net_const 100 503 JNull)
           (mkBreaker OPEN 5 (Some 50) (Some 0)) (mkCentry sample_body 0)).
  - vm_compute. reflexivity.
  - reflexivity.
  - vm_compute. discriminate.
  - vm_compute. reflexivity.
  - vm_compute. reflexivity.
Defined.

(** C2 (as amended): once [now - lastFailureTime > 30 s], the next request
    to an OPEN breaker turns it HALF_OPEN and goes to the network; while
    it is HALF_OPEN every further request that is not throttled is sent
    as well; a server or transport failure of the probe re-opens the
    breaker with [lastFailureTime] restamped, a success closes it with
    [failureCount] 0. *)
Theorem C2_half_open_probe st m p now net b :
  p <> "" -> p <> DEPRECATED_ENDPOINT ->
  circuitBreakers st !! p = Some b ->
  state b = OPEN ->
  CIRCUIT_BREAKER_THRESHOLD <= failureCount b + 1 ->
  now - js_num (lastFailureTime b) > CIRCUIT_BREAKER_TIMEOUT ->
  throttled (recentCalls st) p now = false ->
  snd (request_interceptor st m p now) = Proceed /\
  circuitBreakers (fst (request_interceptor st m p now)) !! p =
    Some (mkBreaker HALF_OPEN (failureCount b) (lastFailureTime b) (lastSuccessTime b)) /\
  (forall m' now',
     throttled (recentCalls (fst (request_interceptor st m p now))) p now' = false ->
     snd (request_interceptor (fst (request_interceptor st m p now)) m' p now') = Proceed) /\
  (forall t1 o1, net 0%nat = (t1, o1) ->
     (is_server_error o1 || is_network_error o1 = true ->
        circuitBreakers (d_state (dispatch st m p now net)) !! p =
          Some (mkBreaker OPEN (failureCount b + 1) (Some t1) (lastSuccessTime b))) /\
     (is_success o1 = true ->
        circuitBreakers (d_state (dispatch st m p now net)) !! p =
          Some (mkBreaker CLOSED 0 (lastFailureTime b) (Some t1)))).
Proof.
  intros Hp Hdep Hb Hst Hfc Hcool Hthr.
  assert (Hr : shouldAttemptReset b now = true).
  { unfold shouldAttemptReset. rewrite Hst. simpl. rewrite Z.gtb_ltb. apply Z.ltb_lt. lia. }
  assert (Hpro : snd (request_interceptor st m p now) = Proceed).
  { apply request_interceptor_proceed. repeat split; [|done|done].
    unfold short_circuits. rewrite Hb, Hst, Hr. done. }
  assert (Hb1 : circuitBreakers (fst (request_interceptor st m p now)) !! p =
                Some (mkBreaker HALF_OPEN (failureCount b) (lastFailureTime b) (lastSuccessTime b))).
  { rewrite request_interceptor_breaker, Hb, Hr. done. }
  split; [exact Hpro|]. split; [exact Hb1|]. split.
  - intros m' now' Ht'. apply request_interceptor_proceed. repeat split; [|done|done].
    unfold short_circuits. rewrite Hb1. done.
  - intros t1 o1 Hnet.
    pose proof (request_interceptor_pair st m p now Hpro) as Hri.
    set (st1 := fst (request_interceptor st m p now)) in *.
    unfold dispatch. rewrite Hri, Hnet. split.
    + intros Ho.
      assert (Hfail : circuitBreakers (d_state (on_live_error st1 m p t1 o1 net)) !! p =
                      Some (mkBreaker OPEN (failureCount b + 1) (Some t1) (lastSuccessTime b))).
      { rewrite on_live_error_state. simpl.
        rewrite (record_failure_lookup _ _ _ _ _ Hp Hb1 Ho). simpl.
        assert (Hge : (failureCount b + 1 >=? CIRCUIT_BREAKER_THRESHOLD) = true).
        { rewrite Z.geb_leb. apply Z.leb_le. lia. }
        by rewrite Hge. }
      destruct o1 as [s d|]; [|exact Hfail].
      destruct (is_success (Resp s d)) eqn:Hs; [|exact Hfail].
      exfalso. simpl in Hs, Ho. rewrite orb_false_r in Ho.
      apply andb_prop in Hs as [_ Hs2]. apply Z.leb_le in Ho. apply Z.ltb_lt in Hs2. lia.
    + intros Hs. destruct o1 as [s d|]; [|discriminate]. rewrite Hs.
      destruct (success_handler st1 m p t1 s d) as [st2 r] eqn:Hsh. simpl.
      pose proof (success_handler_breaker st1 m p t1 s d _ Hb1) as Hx.
      rewrite Hsh in Hx. exact Hx.
Qed.

(** C2 counterexample: after the five failed calls of [st_tripped] (the
    last one at time 40) a request at 40050 turns the breaker HALF_OPEN
    and goes to the network; a second request at 40060, issued before the
    probe has answered, goes to the network too. *)
Lemma C2_second_request_during_probe :
  snd (request_interceptor st_tripped GET "/expenses" 40050) = Proceed /\
  circuitBreakers (fst (request_interceptor st_tripped GET "/expenses" 40050)) !! "/expenses" =
    Some (mkBreaker HALF_OPEN 5 (Some 40) None) /\
  snd (request_interceptor (fst (request_interceptor st_tripped GET "/expenses" 40050))
                           GET "/expenses" 40060) = Proceed.
Proof. vm_compute. repeat split. Qed.

Lemma C2_witness :
  circuitBreakers (d_state (dispatch st_tripped GET "/expenses" 40050 (net_const 40100 200 sample_body)))
    !! "/expenses" = Some (mkBreaker CLOSED 0 (Some 40) (Some 40100)).
Proof.
  destruct (C2_half_open_probe st_tripped GET "/expenses" 40050 (net_const 40100 200 sample_body)
              (mkBreaker OPEN 5 (Some 40) None)) as [_ [_ [_ H]]].
  - discriminate.
  - discriminate.
  - vm_compute. reflexivity.
  - reflexivity.
  - vm_compute. discriminate.
  - vm_compute. reflexivity.
  - vm_compute. reflexivity.
  - destruct (H 40100 (Resp 200 sample_body)) as [_ H2]; [reflexivity|].
    apply H2. reflexivity.
Defined.

(** C4 (as amended): when the live call succeeds on its first attempt
    (so that the response interceptor's fulfilment handler runs), the
    dispatch resolves with the live response, the breaker ends CLOSED with
    [failureCount] 0 and [lastSuccessTime] stamped with the response time,
    and a GET answered with status 200 and a truthy body is stored in the
    cache under ["GET:" ++ path]; in every other case (another method,
    another 2xx status, a falsy body) the cache is left as it was. *)
Theorem C4_first_attempt_success st m p now net st1 t s d :
  request_interceptor st m p now = (st1, Proceed) ->
  net 0%nat = (t, Resp s d) ->
  is_success (Resp s d) = true ->
  d_result (dispatch st m p now net) = Resolved (mkResp d (Some s) None) /\
  (exists lft, circuitBreakers (d_state (dispatch st m p now net)) !! p =
               Some (mkBreaker CLOSED 0 lft (Some t))) /\
  (m = GET -> s = 200 -> truthy d = true ->
   responseCache (d_state (dispatch st m p now net)) !! cache_key GET p = Some (mkCentry d t)) /\
  responseCache (d_state (dispatch st m p now net)) =
    if method_eqb m GET && truthy d && (s =? 200)
    then <[cache_key GET p := mkCentry d t]> (responseCache st)
    else responseCache st.
Proof.
  intros Hri Hnet Hs.
  destruct (proceed_breaker st m p now st1 Hri) as [b [Hb [Hst _]]].
  pose proof (request_interceptor_cache st m p now) as Hrc. rewrite Hri in Hrc. simpl in Hrc.
  unfold dispatch. rewrite Hri, Hnet, Hs.
  pose proof (success_handler_breaker st1 m p t s d b Hb) as Hbr.
  pose proof (success_handler_cache st1 m p t s d) as Hc.
  destruct (success_handler st1 m p t s d) as [st2 r] eqn:Hsh. simpl in *.
  split; [|split; [|split]].
  - unfold success_handler in Hsh. destruct (getCircuitBreaker _ _). by injection Hsh as _ <-.
  - exists (lastFailureTime b). rewrite Hbr. destruct (state b); done.
  - intros -> -> Ht. rewrite Hc. simpl. rewrite Ht. simpl. apply lookup_insert_eq.
  - rewrite Hc, Hrc. destruct m; reflexivity.
Qed.

(** C4 counterexample: a GET answered 203 (a success for axios) resets the
    breaker but is not cached: the fulfilment handler only caches status
    200. *)
Lemma C4_non_200_get_not_cached :
  d_result (dispatch empty_state GET "/settings" 0 (net_const 0 203 sample_body)) =
    Resolved (mkResp sample_body (Some 203) None) /\
  circuitBreakers (d_state (dispatch empty_state GET "/settings" 0 (net_const 0 203 sample_body)))
    !! "/settings" = Some (mkBreaker CLOSED 0 None (Some 0)) /\
  responseCache (d_state (dispatch empty_state GET "/settings" 0 (net_const 0 203 sample_body)))
    !! "GET:/settings" = None.
Proof. vm_compute. repeat split. Qed.

Lemma C4_witness :
  responseCache (d_state (dispatch empty_state GET "/settings" 0 (net_const 0 200 sample_body)))
    !! cache_key GET "/settings" = Some (mkCentry sample_body 0).
Proof.
  destruct (C4_first_attempt_success empty_state GET "/settings" 0 (net_const 0 200 sample_body)
              (fst (request_interceptor empty_state GET "/settings" 0)) 0 200 sample_body)
    as [_ [_ [H _]]].
  - vm_compute. reflexivity.
  - vm_compute. reflexivity.
  - reflexivity.
  - apply H; reflexivity.
Defined.

(** C7 (as amended): the breaker and the throttle window are keyed by the
    path alone.  Two dispatches to the same path with different methods
    (same state, clock and network) leave identical breaker and window
    maps; breakers are created lazily, one per path, and never removed;
    only the cache key carries the method. *)
Theorem C7_state_keyed_by_path st m1 m2 p now net :
  circuitBreakers (d_state (dispatch st m1 p now net)) =
    circuitBreakers (d_state (dispatch st m2 p now net)) /\
  recentCalls (d_state (dispatch st m1 p now net)) =
    recentCalls (d_state (dispatch st m2 p now net)) /\
  is_Some (circuitBreakers (d_state (dispatch st m1 p now net)) !! p) /\
  (forall q, is_Some (circuitBreakers st !! q) ->
             is_Some (circuitBreakers (d_state (dispatch st m1 p now net)) !! q)) /\
  (m1 <> m2 -> cache_key m1 p <> cache_key m2 p).
Proof.
  destruct (dispatch_method st m1 m2 p now net) as [Hb Hc].
  split; [exact Hb|]. split; [exact Hc|]. split; [|split].
  - apply dispatch_mono. rewrite request_interceptor_breaker. eauto.
  - intros q Hq. apply dispatch_mono. by apply request_interceptor_mono.
  - intros Hne. destruct m1, m2; try congruence; discriminate.
Qed.

(** C7 counterexample: the five failed [POST /expenses] of [st_tripped]
    open the one breaker of the path ["/expenses"], so a later
    [GET /expenses] is answered by the fallback without a network call. *)
Lemma C7_post_failures_short_circuit_get :
  circuitBreakers st_tripped !! "/expenses" = Some (mkBreaker OPEN 5 (Some 40) None) /\
  circuitBreakers st_tripped !! "POST:/expenses" = None /\
  d_calls (dispatch st_tripped GET "/expenses" 1000 (net_const 1000 200 sample_body)) = 0%nat /\
  d_result (dispatch st_tripped GET "/expenses" 1000 (net_const 1000 200 sample_body)) =
    Resolved (getFallbackResponse "/expenses" GET 1000).
Proof. vm_compute. repeat split. Qed.

(** C1: with the breaker of ["/expenses"] opened by five failed POSTs, a
    further [POST /expenses] inside the cooldown resolves, without any
    network call, with the canned fallback [{ success: true, data: [], ...,
    fallback: true }] and status 200, instead of an error. *)
Theorem C1_post_resolved_with_fallback net :
  d_calls (dispatch st_tripped POST "/expenses" 1000 net) = 0%nat /\
  d_result (dispatch st_tripped POST "/expenses" 1000 net) =
    Resolved (getFallbackResponse "/expenses" POST 1000) /\
  rstatus (getFallbackResponse "/expenses" POST 1000) = Some 200 /\
  json_get "success" (rdata (getFallbackResponse "/expenses" POST 1000)) = Some (JBool true).
Proof. vm_compute. repeat split. Qed.

Lemma C7_witness :
  circuitBreakers (d_state (dispatch st_tripped GET "/expenses" 1000 (net_const 1000 200 sample_body))) =
    circuitBreakers (d_state (dispatch st_tripped POST "/expenses" 1000 (net_const 1000 200 sample_body))) /\
  is_Some (circuitBreakers (d_state (dispatch st_tripped GET "/expenses" 1000
                                       (net_const 1000 200 sample_body))) !! "/expenses") /\
  cache_key GET "/expenses" <> cache_key POST "/expenses".
Proof.
  destruct (C7_state_keyed_by_path st_tripped GET POST "/expenses" 1000 (net_const 1000 200 sample_body))
    as [Hb [_ [Hp [Hq Hk]]]].
  split; [exact Hb|]. split.
  - apply Hq. vm_compute. eauto.
  - apply Hk. discriminate.
Defined.

(** C9 (as amended): which stores each stage writes.  The request
    interceptor never writes the cache, writes nothing at all when the
    breaker short-circuits the request, and leaves an existing breaker
    that is not OPEN alone (so it then writes only the throttle window);
    the rejection handler of a live error writes neither the windows nor
    the cache (only the breaker); the fulfilment handler writes the cache
    (GET, 200, truthy payload) and the window's [lastResponse] besides the
    breaker. *)
Theorem C9_store_writes :
  (forall st m p now,
     responseCache (fst (request_interceptor st m p now)) = responseCache st) /\
  (forall st m p now,
     short_circuits (circuitBreakers st) p now = true ->
     fst (request_interceptor st m p now) = st) /\
  (forall st m p now b,
     circuitBreakers st !! p = Some b -> state b <> OPEN ->
     circuitBreakers (fst (request_interceptor st m p now)) = circuitBreakers st) /\
  (forall st m p t1 o1 net,
     recentCalls (d_state (on_live_error st m p t1 o1 net)) = recentCalls st /\
     responseCache (d_state (on_live_error st m p t1 o1 net)) = responseCache st) /\
  (forall st m p t s d,
     responseCache (fst (success_handler st m p t s d)) =
       (if method_eqb m GET && truthy d && (s =? 200)
        then <[cache_key m p := mkCentry d t]> (responseCache st)
        else responseCache st) /\
     recentCalls (fst (success_handler st m p t s d)) =
       match recentCalls st !! p with
       | Some w => <[p := mkWindow (time w) (count w) d]> (recentCalls st)
       | None => recentCalls st
       end).
Proof.
  split; [exact request_interceptor_cache|].
  split; [|split; [|split]].
  - intros st m p now Hs. unfold short_circuits in Hs.
    unfold request_interceptor, getCircuitBreaker.
    destruct (circuitBreakers st !! p) as [b|] eqn:Hb; [|discriminate].
    simpl. destruct (state b); simpl in Hs; try discriminate.
    apply negb_true_iff in Hs. rewrite Hs.
    case_match; simpl; by destruct st.
  - intros st m p now b Hb Hst. unfold request_interceptor.
    rewrite (getCircuitBreaker_id _ _ _ Hb).
    destruct (state b); [|congruence|]; rewrite throttle_breakers; done.
  - intros st m p t1 o1 net. rewrite on_live_error_state. split; reflexivity.
  - intros st m p t s d. split; [apply success_handler_cache|apply success_handler_calls].
Qed.

(** C9 counterexample: after one failed [GET /expenses] (breaker
    [failureCount] 1, window of one call, nothing cached), a successful
    [GET /expenses] writes the breaker, the window and the cache. *)
Lemma C9_success_writes_three_stores :
  circuitBreakers st_one_failure !! "/expenses" = Some (mkBreaker CLOSED 1 (Some 0) None) /\
  recentCalls st_one_failure !! "/expenses" = Some (mkWindow 0 1 JNull) /\
  responseCache st_one_failure !! "GET:/expenses" = None /\
  circuitBreakers (d_state (dispatch st_one_failure GET "/expenses" 100 (net_const 100 200 sample_body)))
    !! "/expenses" = Some (mkBreaker CLOSED 0 (Some 0) (Some 100)) /\
  recentCalls (d_state (dispatch st_one_failure GET "/expenses" 100 (net_const 100 200 sample_body)))
    !! "/expenses" = Some (mkWindow 0 2 sample_body) /\
  responseCache (d_state (dispatch st_one_failure GET "/expenses" 100 (net_const 100 200 sample_body)))
    !! "GET:/expenses" = Some (mkCentry sample_body 100).
Proof. vm_compute. repeat split. Qed.

Lemma C9_witness :
  fst (request_interceptor st_tripped POST "/expenses" 1000) = st_tripped.
Proof.
  destruct C9_store_writes as [_ [H _]]. apply H. vm_compute. reflexivity.
Defined.



Lemma reject_with_result st p o st' r :
  reject_with st p o = (st', r) ->
  exists cs, r = Rejected (mkErr (status_of o) false (Some p) cs).
Proof.
  unfold reject_with. case_match.
  - intros [= <- <-]. eauto.
  - destruct (getCircuitBreaker _ _). intros [= <- <-]. eauto.
Qed.

Lemma on_live_error_rejected st m p t1 o1 net e :
  d_result (on_live_error st m p t1 o1 net) = Rejected e ->
  exists t o, d_last (on_live_error st m p t1 o1 net) = Some (t, o) /\
    e_status e = status_of o /\ e_cancelled e = false /\ is_success o = false /\
    (p <> "" -> m = GET -> is_server_error o = false /\ is_network_error o = false).
Proof.
  unfold on_live_error.
  destruct (if is_5xx o1 then _ else _) as [[tk ok] calls].
  destruct ok as [s d|].
  - destruct (is_success (Resp s d)) eqn:Hsu; [simpl; discriminate|].
    destruct (negb (String.eqb p "") && is_server_error (Resp s d)) eqn:Hse.
    + case_match.
      * simpl; discriminate.
      * destruct (method_eqb m GET) eqn:Hm; [simpl; discriminate|].
        destruct (reject_with _ _ _) as [st2 r] eqn:Hr. simpl. intros ->.
        apply reject_with_result in Hr as [cs [= ->]].
        exists tk, (Resp s d). simpl.
        split_and!; try done. intros _ ->. discriminate.
    + destruct (reject_with _ _ _) as [st2 r] eqn:Hr. simpl. intros ->.
      apply reject_with_result in Hr as [cs [= ->]].
      exists tk, (Resp s d). simpl.
      split_and!; try done. intros Hp _. apply andb_false_iff in Hse as [Hse|Hse]; [|done].
      destruct (String.eqb_spec p ""); simpl in Hse; congruence.
  - destruct (negb (String.eqb p "")) eqn:Hne.
    + case_match.
      * simpl; discriminate.
      * destruct (method_eqb m GET) eqn:Hm; [simpl; discriminate|].
        destruct (reject_with _ _ _) as [st2 r] eqn:Hr. simpl. intros ->.
        apply reject_with_result in Hr as [cs [= ->]].
        exists tk, NoResp. simpl.
        split_and!; try done. intros _ ->. discriminate.
    + destruct (reject_with _ _ _) as [st2 r] eqn:Hr. simpl. intros ->.
      apply reject_with_result in Hr as [cs [= ->]].
      exists tk, NoResp. simpl.
      split_and!; try done. intros Hp _. destruct (String.eqb_spec p ""); simpl in Hne; congruence.
Qed.

Lemma dispatch_rejected st m p now net e :
  d_result (dispatch st m p now net) = Rejected e ->
  (exists t o, d_last (dispatch st m p now net) = Some (t, o) /\
     e_status e = status_of o /\ e_cancelled e = false /\ is_success o = false /\
     (p <> "" -> m = GET -> is_server_error o = false /\ is_network_error o = false)) \/
  (d_last (dispatch st m p now net) = None /\ e_status e = None /\ e_cancelled e = true /\
     exists c, snd (request_interceptor st m p now) = Throw (Cancel c)).
Proof.
  unfold dispatch.
  destruct (request_interceptor st m p now) as [st1 pr] eqn:Hri.
  destruct pr as [|[r|c]].
  - destruct (net 0%nat) as [t1 o1].
    destruct o1 as [s d|].
    + destruct (is_success (Resp s d)) eqn:Hsu.
      * destruct (success_handler _ _ _ _ _ _). simpl. discriminate.
      * intros He. left. by apply on_live_error_rejected.
    + intros He. left. by apply on_live_error_rejected.
  - simpl. discriminate.
  - simpl. intros [= <-]. right. simpl. split_and!; eauto.
Qed.

(** [parseError] on axios' error for a live result: AUTHENTICATION
    exactly for status 401. *)
Lemma parseError_auth msg o :
  error_type_eqb (ae_type (parseError (Plain (axios_error msg o)))) AUTHENTICATION =
  bool_decide (status_of o = Some 401).
Proof.
  destruct o as [s d|]; simpl; [|reflexivity].
  destruct (Z.eqb_spec s 401) as [->|H401]; [reflexivity|].
  rewrite bool_decide_false by congruence.
  destruct (s =? 403); [reflexivity|].
  destruct ((400 <=? s) && (s <? 500)); [reflexivity|].
  destruct (500 <=? s); reflexivity.
Qed.

(** [parseError] on an [axios.Cancel] never yields AUTHENTICATION. *)
Lemma parseError_cancel_not_auth c :
  error_type_eqb (ae_type (parseError (Plain (mkJsError None false (JStr c))))) AUTHENTICATION
  = false.
Proof. simpl. by case_match. Qed.

(** [parseError] classifies an axios error as SERVER or NETWORK exactly when the
    response interceptor counts it as a server or network error (status 5xx,
    or no response). *)
Theorem parseError_agrees_with_breaker msg o :
  (is_server_error o || is_network_error o) =
  (error_type_eqb (ae_type (parseError (Plain (axios_error msg o)))) SERVER ||
   error_type_eqb (ae_type (parseError (Plain (axios_error msg o)))) NETWORK).
Proof.
  destruct o as [s d|]; simpl; [|reflexivity].
  destruct (Z.eqb_spec s 401) as [->|H401]; [reflexivity|].
  destruct (Z.eqb_spec s 403) as [->|H403]; [reflexivity|].
  destruct (Z.leb_spec 400 s), (Z.ltb_spec s 500), (Z.leb_spec 500 s);
    simpl; try reflexivity; lia.
Qed.

(** A request logs the user out exactly when it ends rejected with status 401. *)
Theorem dispatch_logs_out_iff_401 msg st m p now net :
  dispatch_logs_out msg st m p now net = true <->
  exists e, d_result (dispatch st m p now net) = Rejected e /\ e_status e = Some 401.
Proof.
  unfold dispatch_logs_out.
  destruct (d_result (dispatch st m p now net)) as [r|e] eqn:Hd.
  - split; [discriminate|]. intros [e [? _]]. discriminate.
  - destruct (dispatch_rejected st m p now net e Hd)
      as [[t [o [Hl [Hs _]]]] | [Hl [Hs [_ [c Hc]]]]]; rewrite Hl.
    + rewrite parseError_auth, <- Hs. split.
      * intros H. apply bool_decide_eq_true in H. eauto.
      * intros [e' [[= <-] H]]. by apply bool_decide_eq_true.
    + rewrite Hc, parseError_cancel_not_auth. split; [discriminate|].
      intros [e' [[= <-] H]]. congruence.
Qed.

(** A GET on a non-empty path is never rejected with a 5xx status or without
    one unless cancelled: such failures are answered from the fallback data. *)
Theorem get_never_rejects_server_error st p now net e :
  p <> "" ->
  d_result (dispatch st GET p now net) = Rejected e ->
  e_cancelled e = true \/ exists s, e_status e = Some s /\ s < 500.
Proof.
  intros Hp Hd.
  destruct (dispatch_rejected st GET p now net e Hd)
    as [[t [o [_ [Hs [_ [_ Hget]]]]]] | [_ [_ [Hc _]]]]; [|by left].
  right. destruct (Hget Hp eq_refl) as [Hse Hne].
  destruct o as [s d|]; [|discriminate].
  exists s. split; [done|]. simpl in Hse. apply Z.leb_gt in Hse. done.
Qed.

Lemma retryRequest_calls net f a k :
  (S k <= snd (retryRequest net f a k) <= k + S (RETRY_ATTEMPTS - a))%nat.
Proof.
  revert a k. induction f as [|f IH]; intros a k; simpl.
  - destruct (is_success (net k).2); simpl; lia.
  - destruct (is_success (net k).2); simpl; [lia|].
    destruct (Nat.ltb a RETRY_ATTEMPTS && is_5xx (net k).2) eqn:H; simpl; [|lia].
    apply andb_true_iff in H as [H _]. apply Nat.ltb_lt in H.
    specialize (IH (S a) (S k)). unfold RETRY_ATTEMPTS in *. lia.
Qed.

Lemma on_live_error_calls st m p t1 o1 net :
  d_calls (on_live_error st m p t1 o1 net) =
  snd (if is_5xx o1 then retryRequest net RETRY_ATTEMPTS 1 1 else ((t1, o1), 1%nat)).
Proof.
  unfold on_live_error.
  destruct (if is_5xx o1 then _ else _) as [[tk ok] calls]. simpl.
  repeat (case_match; simpl; try reflexivity).
Qed.

(** A request reaches the network at most [1 + RETRY_ATTEMPTS] times, and more
    than once only when the first answer was a 5xx status. *)
Theorem dispatch_network_calls_bounded st m p now net :
  (d_calls (dispatch st m p now net) <= 1 + RETRY_ATTEMPTS)%nat /\
  ((1 < d_calls (dispatch st m p now net))%nat -> is_5xx (snd (net 0%nat)) = true).
Proof.
  unfold dispatch.
  destruct (request_interceptor st m p now) as [st1 pr].
  destruct pr as [|e]; [|simpl; unfold RETRY_ATTEMPTS; split; lia].
  destruct (net 0%nat) as [t1 o1] eqn:Hn. simpl.
  assert (Hle : (d_calls (on_live_error st1 m p t1 o1 net) <= 1 + RETRY_ATTEMPTS)%nat /\
                ((1 < d_calls (on_live_error st1 m p t1 o1 net))%nat -> is_5xx o1 = true)).
  { rewrite on_live_error_calls. destruct (is_5xx o1).
    - pose proof (retryRequest_calls net RETRY_ATTEMPTS 1 1). unfold RETRY_ATTEMPTS in *.
      split; [lia|done].
    - simpl. unfold RETRY_ATTEMPTS. split; lia. }
  destruct o1 as [s d|]; [|exact Hle].
  destruct (is_success (Resp s d)); [|exact Hle].
  destruct (success_handler _ _ _ _ _ _). simpl. unfold RETRY_ATTEMPTS. split; lia.
Qed.

(** [getErrorMessage] never returns the empty string. *)
Theorem getErrorMessage_nonempty x : getErrorMessage x <> "".
Proof.
  unfold getErrorMessage, str_or.
  destruct (ae_type (parseError x)); try discriminate;
    destruct (String.eqb_spec (ae_message (parseError x)) ""); congruence.
Qed.

Lemma handleError_calls f x n k b :
  (k <= (handleError f x n k b).2 <= k + n)%nat.
Proof.
  revert x k b. induction n as [|n IH]; intros x k b; simpl.
  - destruct f; simpl; lia.
  - destruct f as [g|]; simpl; [|lia].
    destruct (error_type_eqb _ NETWORK); simpl; [|lia].
    destruct (g k) as [v|e]; simpl; [lia|].
    specialize (IH e (S k) (if error_type_eqb (ae_type (parseError x)) AUTHENTICATION
                            then handleError_logout b else b)). lia.
Qed.

(** [handleError] calls [onRetry] at most [maxRetries] times, never for an error
    that is not a NETWORK one, and exactly [maxRetries] times when every retry
    throws a network error again. *)
Theorem handleError_retry_bound g x n b :
  (* never more than [maxRetries] calls of [onRetry] *)
  ((handleError (Some g) x n 0 b).2 <= n)%nat /\
  (* none unless the error is a NETWORK one *)
  (error_type_eqb (ae_type (parseError x)) NETWORK = false ->
     (handleError (Some g) x n 0 b).2 = 0%nat /\
     (handleError (Some g) x n 0 b).1.1 = HParsed (parseError x)) /\
  (* exactly [maxRetries] when every retry fails with a network error *)
  (error_type_eqb (ae_type (parseError x)) NETWORK = true ->
   (forall i, exists e, g i = RetryThrows e /\
                        error_type_eqb (ae_type (parseError e)) NETWORK = true) ->
     (handleError (Some g) x n 0 b).2 = n).
Proof.
  split_and!.
  - pose proof (handleError_calls (Some g) x n 0 b). lia.
  - intros Hn. destruct n; simpl; [done|]. rewrite Hn. done.
  - intros Hx Hg.
    enough (forall x k b, error_type_eqb (ae_type (parseError x)) NETWORK = true ->
              (handleError (Some g) x n k b).2 = (k + n)%nat) by (rewrite H; auto).
    clear x b Hx. induction n as [|n IH]; intros x k b Hx; simpl.
    + lia.
    + rewrite Hx. destruct (Hg k) as [e [-> He]]. rewrite IH by done. lia.
Qed.

Lemma handleError_storage f x n k b key :
  key <> "token" -> key <> "user" ->
  local_storage (handleError f x n k b).1.2 !! key = local_storage b !! key.
Proof.
  intros Ht Hu. revert x k b. induction n as [|n IH]; intros x k b; simpl.
  - destruct f; case_match; simpl; try done;
      rewrite !lookup_delete_ne; congruence.
  - assert (Hb1 : forall b, local_storage
              (if error_type_eqb (ae_type (parseError x)) AUTHENTICATION
               then handleError_logout b else b) !! key = local_storage b !! key).
    { intros b'. case_match; simpl; [|done]. rewrite !lookup_delete_ne; congruence. }
    destruct f as [g|]; [|apply Hb1].
    destruct (error_type_eqb _ NETWORK); [|apply Hb1].
    destruct (g k) as [v|e]; [apply Hb1|]. rewrite IH. apply Hb1.
Qed.

(** [handleError] leaves the stored auth token alone, while a 401 seen by the
    response interceptor removes it from [localStorage]. *)
Theorem logout_paths_secure_token f x n k b msg st m p now net :
  local_storage (handleError f x n k b).1.2 !! "secure_auth_token" =
    local_storage b !! "secure_auth_token" /\
  (dispatch_logs_out msg st m p now net = true ->
   local_storage (dispatch_browser msg st m p now net b) !! "secure_auth_token" = None).
Proof.
  split.
  - apply handleError_storage; discriminate.
  - intros H. unfold dispatch_browser. rewrite H. simpl.
    rewrite !lookup_delete_ne by discriminate.
    unfold clearAll. apply map_lookup_filter_None. right. intros v _. simpl. discriminate.
Qed.

Lemma get_never_rejects_server_error_witness :
  exists e, d_result (dispatch empty_state GET "/expenses" 0 (net_const 0 404 JNull)) = Rejected e /\
    (e_cancelled e = true \/ exists s, e_status e = Some s /\ s < 500).
Proof.
  eexists. split; [vm_compute; reflexivity|].
  apply (get_never_rejects_server_error empty_state "/expenses" 0 (net_const 0 404 JNull));
    [discriminate|vm_compute; reflexivity].
Defined.

Lemma dispatch_network_calls_bounded_witness :
  (1 < d_calls (dispatch empty_state GET "/expenses" 0 (net_const 0 503 JNull)))%nat /\
  is_5xx (snd (net_const 0 503 JNull 0%nat)) = true.
Proof.
  assert (H : (1 < d_calls (dispatch empty_state GET "/expenses" 0 (net_const 0 503 JNull)))%nat)
    by (apply Nat.ltb_lt; vm_compute; reflexivity).
  split; [exact H|].
  exact (proj2 (dispatch_network_calls_bounded empty_state GET "/expenses" 0
                  (net_const 0 503 JNull)) H).
Defined.

Lemma handleError_retry_bound_witness :
  (handleError (Some (fun _ => RetryThrows (Plain (mkJsError None true JNull))))
     (Plain (mkJsError (Some (404, JNull)) true JNull)) 3 0 (mkBrowser ∅ [])).2 = 0%nat /\
  (handleError (Some (fun _ => RetryThrows (Plain (mkJsError None true JNull))))
     (Plain (mkJsError None true JNull)) 3 0 (mkBrowser ∅ [])).2 = 3%nat.
Proof.
  split.
  - apply (proj1 (proj2 (handleError_retry_bound
             (fun _ => RetryThrows (Plain (mkJsError None true JNull)))
             (Plain (mkJsError (Some (404, JNull)) true JNull)) 3 (mkBrowser ∅ []))));
      reflexivity.
  - apply (proj2 (proj2 (handleError_retry_bound
             (fun _ => RetryThrows (Plain (mkJsError None true JNull)))
             (Plain (mkJsError None true JNull)) 3 (mkBrowser ∅ [])))); [reflexivity|].
    intros i. eexists. split; reflexivity.
Defined.

Lemma logout_paths_secure_token_witness :
  dispatch_logs_out JNull empty_state GET "/expenses" 0 (net_const 0 401 JNull) = true /\
  local_storage (dispatch_browser JNull empty_state GET "/expenses" 0 (net_const 0 401 JNull)
                   (mkBrowser {[ "secure_auth_token" := [1] ]} [])) !! "secure_auth_token" = None.
Proof.
  assert (H : dispatch_logs_out JNull empty_state GET "/expenses" 0 (net_const 0 401 JNull) = true)
    by (vm_compute; reflexivity).
  split; [exact H|].
  exact (proj2 (logout_paths_secure_token None (Plain (mkJsError None true JNull)) 0 0
                  (mkBrowser {[ "secure_auth_token" := [1] ]} [])
                  JNull empty_state GET "/expenses" 0 (net_const 0 401 JNull)) H).
Defined.



Ltac lia_div := Z.div_mod_to_equations; lia.

Lemma b64_value_char n : 0 <= n < 64 -> b64_value (b64_char n) = Some n.
Proof.
  intros Hn. unfold b64_char, b64_value.
  destruct (Z.ltb_spec n 26); [repeat (case_match; try lia); f_equal; lia|].
  destruct (Z.ltb_spec n 52); [repeat (case_match; try lia); f_equal; lia|].
  destruct (Z.ltb_spec n 62); [repeat (case_match; try lia); f_equal; lia|].
  destruct (Z.eqb_spec n 62); [subst; reflexivity|].
  assert (n = 63) by lia. subst. reflexivity.
Qed.

Definition b64_alpha (c : Z) : Prop :=
  is_ascii_ws c = false /\ c <> 61 /\ exists v, b64_value c = Some v.

Lemma b64_char_alpha n : 0 <= n < 64 -> b64_alpha (b64_char n).
Proof.
  intros Hn. split_and!; [| |eexists; by apply b64_value_char].
  - unfold b64_char, is_ascii_ws.
    repeat (case_match; try lia); repeat (apply orb_false_iff; split); apply Z.eqb_neq; lia.
  - unfold b64_char. repeat (case_match; try lia).
Qed.

Definition is_byte (c : Z) : Prop := 0 <= c < 256.

(** Strong induction on lists by steps of three. *)
Lemma list_ind3 (P : list Z -> Prop) :
  P [] -> (forall a, P [a]) -> (forall a b, P [a; b]) ->
  (forall a b c l, P l -> P (a :: b :: c :: l)) -> forall l, P l.
Proof.
  intros H0 H1 H2 H3.
  enough (forall n l, (length l <= n)%nat -> P l) by (intros l; eauto).
  induction n as [|n IH]; intros l Hl.
  - destruct l; [done|simpl in Hl; lia].
  - destruct l as [|a [|b [|c l]]]; auto. apply H3, IH. simpl in Hl. lia.
Qed.

Lemma b64_body_alpha l : Forall is_byte l -> Forall b64_alpha (b64_body l).
Proof.
  induction l as [| a | a b | a b c l IH] using list_ind3; intros Hl;
    repeat match goal with H : Forall _ (_ :: _) |- _ => inversion_clear H end;
    unfold is_byte in *; simpl;
    repeat (apply List.Forall_cons; [apply b64_char_alpha; lia_div|]); auto.
Qed.

Lemma b64_body_decode l :
  Forall is_byte l ->
  exists vs, b64_values (b64_body l) = Some vs /\ b64_decode_values vs = l.
Proof.
  induction l as [| a | a b | a b c l IH] using list_ind3; intros Hl;
    repeat match goal with H : Forall _ (_ :: _) |- _ => inversion_clear H end;
    unfold is_byte in *; simpl.
  - by exists [].
  - rewrite !b64_value_char by lia_div. eexists; split; [reflexivity|]. simpl. f_equal. lia_div.
  - rewrite !b64_value_char by lia_div. eexists; split; [reflexivity|]. simpl. f_equal; [lia_div|].
    f_equal. lia_div.
  - destruct (IH ltac:(assumption)) as [vs [Hvs Hd]]. rewrite !b64_value_char by lia_div.
    rewrite Hvs. eexists; split; [reflexivity|]. simpl. rewrite Hd.
    repeat f_equal; lia_div.
Qed.

Lemma b64_body_length l :
  length (b64_body l) =
  (4 * (length l / 3) + match (length l mod 3)%nat with 0%nat => 0 | 1%nat => 2 | _ => 3 end)%nat.
Proof.
  induction l as [| a | a b | a b c l IH] using list_ind3; try reflexivity.
  cbn [b64_body length app]. rewrite IH. replace (S (S (S (length l)))) with (length l + 1 * 3)%nat by lia.
  rewrite Nat.div_add, Nat.Div0.mod_add by lia. lia.
Qed.

Lemma filter_no_ws s :
  Forall (fun c => is_ascii_ws c = false) s ->
  List.filter (fun c => negb (is_ascii_ws c)) s = s.
Proof.
  induction 1 as [|c s Hc _ IH]; simpl; [done|]. by rewrite Hc, IH.
Qed.

Lemma strip_padding_app body pad :
  Forall (fun c => c <> 61) body ->
  (length (body ++ pad) mod 4 = 0)%nat ->
  (pad = [] \/ (pad = [61] /\ body <> []) \/ pad = [61; 61]) ->
  strip_padding (body ++ pad) = body.
Proof.
  intros Hb Hlen Hpad. unfold strip_padding.
  replace (length (body ++ pad) mod 4 =? 0)%nat with true
    by (symmetry; by apply Nat.eqb_eq).
  rewrite rev_app_distr.
  assert (Hr : Forall (fun c => c <> 61) (rev body)) by by apply Forall_rev.
  destruct Hpad as [-> | [[-> Hne] | ->]]; simpl.
  - rewrite app_nil_r.
    destruct (rev body) as [|x [|y r]] eqn:E; [done| |];
      inversion_clear Hr; by rewrite (proj2 (Z.eqb_neq _ _)).
  - destruct (rev body) as [|y r] eqn:E.
    + apply (f_equal (@rev Z)) in E. rewrite rev_involutive in E. simpl in E. congruence.
    + inversion_clear Hr. simpl. rewrite (proj2 (Z.eqb_neq _ _)) by done. simpl.
      rewrite <- (rev_involutive body), E. reflexivity.
  - apply rev_involutive.
Qed.

Lemma mod4 q k : (k < 4)%nat -> ((4 * q + k) mod 4 = k)%nat.
Proof.
  intros Hk. rewrite Nat.add_comm, Nat.mul_comm, Nat.Div0.mod_add. by apply Nat.mod_small.
Qed.

Lemma atob_btoa l : Forall is_byte l -> atob (b64_body l ++ b64_pad l) = Some l.
Proof.
  intros Hl.
  pose proof (b64_body_alpha l Hl) as Ha.
  pose proof (b64_body_length l) as Hlen.
  destruct (b64_body_decode l Hl) as [vs [Hvs Hd]].
  unfold atob.
  rewrite filter_no_ws.
  2:{ apply Forall_app. split.
      - eapply Forall_impl; [exact Ha|]. by intros c [? _].
      - unfold b64_pad. destruct (length l mod 3)%nat as [|[|[|]]]; repeat constructor. }
  rewrite strip_padding_app.
  - replace (length (b64_body l) mod 4 =? 1)%nat with false.
    + by rewrite Hvs, Hd.
    + symmetry. apply Nat.eqb_neq. rewrite Hlen.
      pose proof (Nat.mod_upper_bound (length l) 3 ltac:(lia)).
      destruct (length l mod 3)%nat as [|[|[|]]]; try lia; rewrite mod4; lia.
  - eapply Forall_impl; [exact Ha|]. by intros c [_ [? _]].
  - rewrite length_app, Hlen. unfold b64_pad.
    pose proof (Nat.mod_upper_bound (length l) 3 ltac:(lia)).
    destruct (length l mod 3)%nat as [|[|[|]]]; try lia; cbn [length].
    + replace (4 * (length l / 3) + 0 + 0)%nat with (4 * (length l / 3) + 0)%nat by lia.
      apply mod4; lia.
    + replace (4 * (length l / 3) + 2 + 2)%nat with (4 * (length l / 3 + 1) + 0)%nat by lia.
      apply mod4; lia.
    + replace (4 * (length l / 3) + 3 + 1)%nat with (4 * (length l / 3 + 1) + 0)%nat by lia.
      apply mod4; lia.
  - unfold b64_pad.
    pose proof (Nat.mod_upper_bound (length l) 3 ltac:(lia)).
    destruct (length l mod 3)%nat as [|[|[|]]]; try lia; auto.
    right; left. split; [done|]. intros E. rewrite E in Hlen. simpl in Hlen. lia.
Qed.

Lemma lxor_lt_pow2 a b n :
  0 <= a < 2 ^ n -> 0 <= b < 2 ^ n -> 0 <= Z.lxor a b < 2 ^ n.
Proof.
  intros Ha Hb.
  assert (Hn : 0 <= n \/ n < 0) by lia.
  destruct Hn as [Hn|Hn]; [|rewrite Z.pow_neg_r in Ha by lia; lia].
  split; [apply Z.lxor_nonneg; lia|].
  destruct (Z.eq_dec (Z.lxor a b) 0) as [->|Hne]; [apply Z.pow_pos_nonneg; lia|].
  assert (Hpos : 0 < Z.lxor a b) by (pose proof (proj2 (Z.lxor_nonneg a b)); lia).
  assert (Hn' : 0 < n).
  { destruct (Z.eq_dec n 0) as [->|]; [|lia]. simpl in Ha, Hb.
    assert (a = 0) as -> by lia. assert (b = 0) as -> by lia. done. }
  apply Z.log2_lt_pow2; [done|].
  eapply Z.le_lt_trans; [apply Z.log2_lxor; lia|].
  apply Z.max_lub_lt.
  - destruct (Z.eq_dec a 0) as [->|]; [simpl; lia|]. apply Z.log2_lt_pow2; lia.
  - destruct (Z.eq_dec b 0) as [->|]; [simpl; lia|]. apply Z.log2_lt_pow2; lia.
Qed.

Definition is_unit (c : Z) : Prop := 0 <= c < 2 ^ 16.

Lemma key_char_range key i : Forall is_unit key -> is_unit (key_char key i).
Proof.
  intros Hk. unfold key_char. destruct (nth_error key _) as [c|] eqn:E.
  - apply nth_error_In in E. rewrite List.Forall_forall in Hk. by apply Hk.
  - unfold is_unit. lia.
Qed.

Lemma xor_from_involutive key i t :
  Forall is_unit key -> Forall is_unit t -> xor_from key i (xor_from key i t) = t.
Proof.
  intros Hk Ht. revert i. induction Ht as [|c t Hc _ IH]; intros i; simpl; [done|].
  rewrite IH. f_equal.
  pose proof (key_char_range key i Hk) as Hki. unfold is_unit in *.
  pose proof (lxor_lt_pow2 c (key_char key i) 16 Hc Hki) as Hx.
  rewrite (Z.mod_small (Z.lxor c _)) by lia.
  rewrite Z.lxor_assoc, Z.lxor_nilpotent, Z.lxor_0_r. apply Z.mod_small. lia.
Qed.

Lemma xor_from_bytes key i t :
  Forall (fun c => 0 <= c < 128) key -> Forall is_byte t -> Forall is_byte (xor_from key i t).
Proof.
  intros Hk Ht. revert i. induction Ht as [|c t Hc _ IH]; intros i; simpl; constructor; auto.
  assert (Hki : 0 <= key_char key i < 2 ^ 8).
  { unfold key_char. destruct (nth_error key _) as [k|] eqn:E; [|lia].
    apply nth_error_In in E. rewrite List.Forall_forall in Hk. apply Hk in E. lia. }
  unfold is_byte in *. change 256 with (2 ^ 8) in *.
  pose proof (lxor_lt_pow2 c (key_char key i) 8 Hc Hki).
  rewrite Z.mod_small; lia.
Qed.

Lemma to_radix_aux_digits r f n acc :
  2 <= r <= 16 -> 0 <= n ->
  Forall (fun c => exists d, 0 <= d < r /\ c = digit_char d) acc ->
  Forall (fun c => exists d, 0 <= d < r /\ c = digit_char d) (to_radix_aux r f n acc).
Proof.
  intros Hr. revert n acc. induction f as [|f IH]; intros n acc Hn Hacc; simpl; [done|].
  assert (Hd : Forall (fun c => exists d, 0 <= d < r /\ c = digit_char d)
                 (digit_char (n mod r) :: acc)).
  { constructor; [|done]. exists (n mod r). split; [apply Z.mod_pos_bound; lia|done]. }
  case_match; [done|]. apply IH; [apply Z.div_pos; lia|done].
Qed.

Lemma to_radix_aux_nonempty r f n acc : acc <> [] -> to_radix_aux r f n acc <> [].
Proof.
  revert n acc. induction f as [|f IH]; intros n acc Hacc; simpl; [done|].
  case_match; [discriminate|]. by apply IH.
Qed.

Lemma generateKey_hex_digits fingerprint :
  generateKey fingerprint <> [] /\
  Forall (fun c => 48 <= c <= 57 \/ 97 <= c <= 102) (generateKey fingerprint).
Proof.
  unfold generateKey, to_radix.
  rewrite (proj2 (Z.ltb_ge _ _)) by lia. split.
  - simpl. case_match; [discriminate|]. by apply to_radix_aux_nonempty.
  - eapply Forall_impl.
    + apply to_radix_aux_digits; [lia|lia|constructor].
    + intros c [d [Hd ->]]. unfold digit_char. case_match; lia.
Qed.

(** The key [generateKey] derives from any fingerprint is a non-empty string of
    lower-case hexadecimal digits. *)
Theorem generateKey_hex fingerprint :
  generateKey fingerprint <> [] /\
  Forall (fun c => 48 <= c <= 57 \/ 97 <= c <= 102) (generateKey fingerprint).
Proof. apply generateKey_hex_digits. Qed.

Lemma generateKey_small fingerprint :
  Forall (fun c => 0 <= c < 128) (generateKey fingerprint).
Proof.
  eapply Forall_impl; [apply generateKey_hex_digits|]. simpl. lia.
Qed.

Lemma encrypt_decrypt K text :
  Forall (fun c => 0 <= c < 128) K -> Forall is_byte text ->
  exists e, encrypt K text = Some e /\ decrypt K e = text /\ (text <> [] -> e <> []).
Proof.
  intros HK Ht.
  destruct text as [|c0 t0] eqn:Etext; [by exists []|].
  rewrite <- Etext in *.
  assert (Hx : Forall is_byte (xor_from K 0 text)) by by apply xor_from_bytes.
  unfold encrypt. rewrite Etext. rewrite <- Etext. unfold btoa.
  replace (forallb _ _) with true.
  2:{ symmetry. apply forallb_forall. intros c Hc. rewrite List.Forall_forall in Hx.
      apply Hx in Hc. unfold is_byte in Hc. apply andb_true_iff; split; lia. }
  eexists; split; [reflexivity|].
  unfold decrypt.
  destruct (b64_body (xor_from K 0 text) ++ b64_pad _) as [|e0 e'] eqn:Ee.
  - exfalso. rewrite Etext in Ee. simpl in Ee.
    destruct t0 as [|? [|? ?]]; simpl in Ee; discriminate.
  - rewrite <- Ee, atob_btoa by done. split; [|rewrite Ee; discriminate].
    apply xor_from_involutive.
    + eapply Forall_impl; [exact HK|]. unfold is_unit. lia.
    + eapply Forall_impl; [exact Ht|]. unfold is_byte, is_unit. lia.
Qed.

(** [decrypt] inverts [encrypt] on Latin-1 text, for the key [generateKey]
    derives. *)
Theorem cipher_round_trip fingerprint text :
  Forall is_byte text ->
  exists e, encrypt (generateKey fingerprint) text = Some e /\
            decrypt (generateKey fingerprint) e = text.
Proof.
  intros Ht. destruct (encrypt_decrypt (generateKey fingerprint) text) as [e [He [Hd _]]];
    [apply generateKey_small|done|].
  by exists e.
Qed.

Definition radix_digit (r c : Z) : Prop := exists d, 0 <= d < r /\ c = digit_char d.

Lemma digit_value_char r d : r <= 16 -> 0 <= d < r -> digit_value (digit_char d) = Some d.
Proof.
  intros Hr Hd. unfold digit_char, digit_value.
  destruct (Z.ltb_spec d 10); repeat (case_match; try lia); f_equal; lia.
Qed.

Lemma parse_digits_app r l1 l2 a :
  r <= 16 -> Forall (radix_digit r) l1 ->
  parse_digits r (l1 ++ l2) a = parse_digits r l2 (parse_digits r l1 a).
Proof.
  intros Hr Hl. revert a. induction Hl as [|c l1 [d [Hd ->]] _ IH]; intros a; simpl; [done|].
  rewrite (digit_value_char r d) by done. rewrite (proj2 (Z.ltb_lt _ _)) by lia. apply IH.
Qed.

Lemma to_radix_aux_app r f n acc :
  to_radix_aux r f n acc = to_radix_aux r f n [] ++ acc.
Proof.
  revert n acc. induction f as [|f IH]; intros n acc; simpl; [done|].
  case_match; [done|]. rewrite IH, (IH _ [_]), <- app_assoc. done.
Qed.

Lemma to_radix_aux_value r f n :
  2 <= r <= 16 -> 0 <= n < r ^ Z.of_nat f ->
  parse_digits r (to_radix_aux r f n []) 0 = n.
Proof.
  intros Hr. revert n. induction f as [|f IH]; intros n Hn.
  - simpl in *. lia.
  - cbn [to_radix_aux]. destruct (Z.ltb_spec n r).
    + simpl. rewrite (digit_value_char r) by (try apply Z.mod_pos_bound; lia).
      rewrite (proj2 (Z.ltb_lt _ _)) by (apply Z.mod_pos_bound; lia).
      rewrite Z.mod_small by lia. lia.
    + rewrite to_radix_aux_app, parse_digits_app; [| lia |].
      * rewrite IH.
        -- simpl. rewrite (digit_value_char r) by (try apply Z.mod_pos_bound; lia).
           rewrite (proj2 (Z.ltb_lt _ _)) by (apply Z.mod_pos_bound; lia).
           rewrite Z.mul_comm, <- Z.div_mod; lia.
        -- split; [apply Z.div_pos; lia|].
           apply Z.div_lt_upper_bound; [lia|].
           rewrite Nat2Z.inj_succ, Z.pow_succ_r in Hn by lia. lia.
      * apply to_radix_aux_digits; [lia|apply Z.div_pos; lia|constructor].
Qed.

Lemma log2_fuel r n :
  2 <= r -> 0 <= n -> n < r ^ Z.of_nat (S (Z.to_nat (Z.log2 n))).
Proof.
  intros Hr Hn. rewrite Nat2Z.inj_succ, Z2Nat.id by apply Z.log2_nonneg.
  apply Z.lt_le_trans with (2 ^ Z.succ (Z.log2 n)).
  - destruct (Z.eq_dec n 0) as [->|]; [simpl; lia|].
    apply Z.log2_spec. lia.
  - apply Z.pow_le_mono_l. split; [lia|done].
Qed.

Lemma to_radix_digits n :
  0 <= n ->
  to_radix 10 n <> [] /\ Forall (fun c => 48 <= c <= 57) (to_radix 10 n) /\
  parse_digits 10 (to_radix 10 n) 0 = n.
Proof.
  intros Hn. unfold to_radix. rewrite (proj2 (Z.ltb_ge _ _)) by lia. split_and!.
  - simpl. case_match; [discriminate|]. by apply to_radix_aux_nonempty.
  - eapply Forall_impl; [apply to_radix_aux_digits; [lia|lia|constructor]|].
    intros c [d [Hd ->]]. unfold digit_char. case_match; lia.
  - apply to_radix_aux_value; [lia|]. split; [done|]. apply log2_fuel; lia.
Qed.

Lemma parseInt_to_radix_10 n : 0 <= n -> parseInt (to_radix 10 n) = Some n.
Proof.
  intros Hn. destruct (to_radix_digits n Hn) as [Hne [Hd Hv]].
  unfold parseInt.
  destruct (to_radix 10 n) as [|c s] eqn:E; [done|].
  inversion Hd as [|? ? Hc Hs]; subst.
  assert (Hws : is_js_ws c = false).
  { unfold is_js_ws. apply not_true_is_false. intros Ew.
    rewrite !orb_true_iff, !andb_true_iff, !Z.eqb_eq, !Z.leb_le in Ew. lia. }
  simpl. rewrite Hws.
  rewrite (proj2 (Z.eqb_neq c 45)), (proj2 (Z.eqb_neq c 43)) by lia.
  assert (Hr : (match c :: s with
                | c0 :: x :: t => if (c0 =? 48) && ((x =? 120) || (x =? 88)) then (16, t)
                                  else (10, c :: s)
                | _ => (10, c :: s) end) = (10, c :: s)).
  { destruct s as [|x t]; [done|]. inversion Hs; subst.
    rewrite (proj2 (Z.eqb_neq x 120)), (proj2 (Z.eqb_neq x 88)) by lia.
    by rewrite andb_false_r. }
  rewrite Hr. unfold digit_value at 1.
  rewrite (proj2 (Z.leb_le 48 c)), (proj2 (Z.leb_le c 57)) by lia. simpl.
  rewrite (proj2 (Z.ltb_lt _ _)) by lia. f_equal. lia.
Qed.

(** [parseInt] reads back the decimal string [toString()] writes for a
    non-negative integer. *)
Theorem parseInt_to_radix n : 0 <= n -> parseInt (to_radix 10 n) = Some n.
Proof. apply parseInt_to_radix_10. Qed.

Lemma exp_key_ne key : exp_key key <> secure_key key.
Proof.
  assert (Hk : forall k, String.append k "_exp" <> k).
  { induction k as [|c k IH]; intros H; [discriminate|]. injection H as H. by apply IH. }
  unfold exp_key, secure_key. intros H. simpl in H.
  repeat (injection H as H). by apply (Hk key).
Qed.

(** After [setItem] of a non-empty Latin-1 value, [getItem] before the 24-hour
    expiry returns the value (parsed as JSON when it parses) and changes
    nothing in [localStorage]. *)
Theorem setItem_getItem fingerprint json_parse ls key value now t :
  Forall is_byte value -> value <> [] -> 0 <= now -> t <= now + ITEM_LIFETIME ->
  getItem (generateKey fingerprint) json_parse
    (setItem (generateKey fingerprint) ls key value now) key t =
  (setItem (generateKey fingerprint) ls key value now,
   Some (match json_parse value with Some v => Parsed v | None => Raw value end)).
Proof.
  intros Hb Hne Hnow Ht. set (K := generateKey fingerprint).
  destruct (encrypt_decrypt K value) as [e [He [Hd He0]]]; [apply generateKey_small|done|].
  unfold setItem. rewrite He. unfold getItem.
  rewrite lookup_insert_eq.
  destruct (to_radix_digits (now + ITEM_LIFETIME)) as [Hnz _]; [unfold ITEM_LIFETIME; lia|].
  pose proof (parseInt_to_radix_10 (now + ITEM_LIFETIME)) as Hp.
  destruct (to_radix 10 (now + ITEM_LIFETIME)) as [|r0 r'] eqn:Er; [done|].
  cbv beta iota. rewrite Hp by (unfold ITEM_LIFETIME; lia).
  rewrite Z.gtb_ltb, (proj2 (Z.ltb_ge _ _)) by lia.
  rewrite lookup_insert_ne by apply exp_key_ne. rewrite lookup_insert_eq.
  destruct e as [|e0 e']; [by destruct He0|]. rewrite Hd. done.
Qed.

Lemma setItem_stored K ls key value now :
  Forall (fun c => 0 <= c < 128) K -> Forall is_byte value ->
  exists e, decrypt K e = value /\ (value <> [] -> e <> []) /\
    setItem K ls key value now =
    <[exp_key key := to_radix 10 (now + ITEM_LIFETIME)]> (<[secure_key key := e]> ls).
Proof.
  intros HK Hb. destruct (encrypt_decrypt K value) as [e [He [Hd He0]]]; [done|done|].
  exists e. unfold setItem. by rewrite He.
Qed.

Lemma exp_lookup_setItem (ls' : gmap string (list Z)) key now :
  0 <= now ->
  exists r0 r', <[exp_key key := to_radix 10 (now + ITEM_LIFETIME)]> ls' !! exp_key key = Some (r0 :: r')
    /\ parseInt (r0 :: r') = Some (now + ITEM_LIFETIME).
Proof.
  intros Hnow. rewrite lookup_insert_eq.
  destruct (to_radix_digits (now + ITEM_LIFETIME)) as [Hnz _]; [unfold ITEM_LIFETIME; lia|].
  pose proof (parseInt_to_radix_10 (now + ITEM_LIFETIME)) as Hp.
  destruct (to_radix 10 (now + ITEM_LIFETIME)) as [|r0 r']; [done|].
  exists r0, r'. split; [done|]. apply Hp. unfold ITEM_LIFETIME; lia.
Qed.

(** After the 24-hour expiry, [getItem] returns [null] and removes both the item
    and its expiry entry. *)
Theorem getItem_expired fingerprint json_parse ls key value now t :
  Forall is_byte value -> 0 <= now -> now + ITEM_LIFETIME < t ->
  let K := generateKey fingerprint in
  let ls1 := setItem K ls key value now in
  getItem K json_parse ls1 key t = (removeItem ls1 key, None) /\
  removeItem ls1 key !! secure_key key = None /\ removeItem ls1 key !! exp_key key = None.
Proof.
  intros Hb Hnow Ht K ls1.
  destruct (setItem_stored K ls key value now) as [e [_ [_ Hs]]]; [apply generateKey_small|done|].
  subst ls1. rewrite Hs. unfold getItem, removeItem.
  destruct (exp_lookup_setItem (<[secure_key key:=e]> ls) key now Hnow) as [r0 [r' [Hl Hp]]].
  rewrite Hl, Hp, Z.gtb_ltb, (proj2 (Z.ltb_lt _ _)) by lia.
  split_and!; [done| |].
  - rewrite lookup_delete_ne by apply exp_key_ne. apply lookup_delete_eq.
  - apply lookup_delete_eq.
Qed.

Lemma lxor_high c k :
  256 <= c < 2 ^ 16 -> 0 <= k < 256 -> 256 <= Z.lxor c k mod 2 ^ 16.
Proof.
  intros Hc Hk.
  pose proof (lxor_lt_pow2 c k 16 ltac:(lia) ltac:(lia)) as Hx.
  rewrite Z.mod_small by lia.
  assert (Hs : Z.shiftr (Z.lxor c k) 8 = Z.shiftr c 8).
  { rewrite Z.shiftr_lxor, !Z.shiftr_div_pow2 by lia.
    rewrite (Z.div_small k) by (simpl; lia). apply Z.lxor_0_r. }
  rewrite !Z.shiftr_div_pow2 in Hs by lia. simpl in Hs. lia_div.
Qed.

Lemma xor_from_high K i text :
  Forall (fun c => 0 <= c < 128) K -> Forall is_unit text ->
  Exists (fun c => 256 <= c) text -> Exists (fun c => 256 <= c) (xor_from K i text).
Proof.
  intros HK Ht HE. revert i. induction HE as [c t Hc|c t _ IH]; intros i; simpl.
  - apply Exists_cons_hd. inversion Ht; subst. unfold is_unit in *.
    apply lxor_high; [lia|].
    unfold key_char. destruct (nth_error K _) as [k|] eqn:E; [|lia].
    apply nth_error_In in E. rewrite List.Forall_forall in HK. apply HK in E. lia.
  - apply Exists_cons_tl. inversion Ht; subst. by apply IH.
Qed.

(** [setItem] of a value with a character above U+00FF stores nothing: [btoa]
    throws and the error is caught. *)
Theorem setItem_non_latin1 fingerprint ls key value now :
  Forall is_unit value -> Exists (fun c => 256 <= c) value ->
  setItem (generateKey fingerprint) ls key value now = ls.
Proof.
  intros Hu HE. unfold setItem, encrypt.
  destruct value as [|c0 t0] eqn:Ev; [inversion HE|]. rewrite <- Ev in *.
  unfold btoa.
  pose proof (xor_from_high (generateKey fingerprint) 0 value (generateKey_small _) Hu HE) as Hx.
  replace (forallb _ _) with false; [done|].
  symmetry. apply not_true_is_false. intros Hf.
  rewrite forallb_forall in Hf. apply List.Exists_exists in Hx as [x [Hin Hx]].
  apply Hf in Hin. apply andb_true_iff in Hin as [_ Hin]. apply Z.ltb_lt in Hin. lia.
Qed.

(** An item stored with the empty string reads back as [null]. *)
Theorem setItem_empty_null K json_parse ls key now t :
  (getItem K json_parse (setItem K ls key [] now) key t).2 = None.
Proof.
  unfold setItem, encrypt, getItem. rewrite lookup_insert_eq.
  case_match; [done|]. rewrite lookup_insert_ne by apply exp_key_ne.
  by rewrite lookup_insert_eq.
Qed.

(** Right after [setItem], [isTokenExpired] holds exactly when the given time is
    past the 24-hour expiry. *)
Theorem isTokenExpired_setItem fingerprint ls key value now t :
  Forall is_byte value -> 0 <= now ->
  isTokenExpired (setItem (generateKey fingerprint) ls key value now) key t =
  (now + ITEM_LIFETIME <? t).
Proof.
  intros Hb Hnow.
  destruct (setItem_stored (generateKey fingerprint) ls key value now) as [e [_ [_ Hs]]];
    [apply generateKey_small|done|].
  rewrite Hs. unfold isTokenExpired.
  destruct (exp_lookup_setItem (<[secure_key key:=e]> ls) key now Hnow) as [r0 [r' [Hl Hp]]].
  by rewrite Hl, Hp, Z.gtb_ltb.
Qed.

Lemma starts_with_secure k : starts_with (secure_key k) "secure_" = true.
Proof. by destruct k. Qed.

(** After [clear], every [getItem] returns [null] and every token counts as
    expired. *)
Theorem clearAll_storage K json_parse ls key t :
  getItem K json_parse (clearAll ls) key t = (clearAll ls, None) /\
  isTokenExpired (clearAll ls) key t = true.
Proof.
  assert (Hn : forall k, clearAll ls !! secure_key k = None).
  { intros k. unfold clearAll. apply map_lookup_filter_None. right.
    intros x _. change (starts_with (secure_key k) "secure_" <> false).
    by rewrite starts_with_secure. }
  unfold getItem, isTokenExpired.
  change (exp_key key) with (secure_key (String.append key "_exp")). rewrite !Hn. done.
Qed.

Lemma parseInt_to_radix_witness :
  0 <= 86400000 /\ parseInt (to_radix 10 86400000) = Some 86400000.
Proof. split; [lia|]. apply parseInt_to_radix. lia. Defined.

Lemma cipher_round_trip_witness :
  exists e, encrypt (generateKey [77; 111; 122]) [104; 105; 233] = Some e /\
            decrypt (generateKey [77; 111; 122]) e = [104; 105; 233].
Proof.
  apply cipher_round_trip.
  repeat (apply List.Forall_cons; [unfold is_byte; lia|]). apply List.Forall_nil.
Defined.

Lemma setItem_getItem_witness :
  getItem (generateKey [77; 111; 122]) (fun _ => None)
    (setItem (generateKey [77; 111; 122]) ∅ "auth_token" [116; 107] 0) "auth_token" 1000 =
  (setItem (generateKey [77; 111; 122]) ∅ "auth_token" [116; 107] 0, Some (Raw [116; 107])).
Proof.
  apply (setItem_getItem [77; 111; 122] (fun _ => None) ∅ "auth_token" [116; 107] 0 1000).
  - repeat (apply List.Forall_cons; [unfold is_byte; lia|]). apply List.Forall_nil.
  - discriminate.
  - lia.
  - unfold ITEM_LIFETIME. lia.
Defined.

Lemma getItem_expired_witness :
  let K := generateKey [77; 111; 122] in
  let ls1 := setItem K ∅ "auth_token" [116; 107] 0 in
  getItem K (fun _ => None) ls1 "auth_token" (ITEM_LIFETIME + 1) = (removeItem ls1 "auth_token", None) /\
  removeItem ls1 "auth_token" !! secure_key "auth_token" = None /\
  removeItem ls1 "auth_token" !! exp_key "auth_token" = None.
Proof.
  apply (getItem_expired [77; 111; 122] (fun _ => None) ∅ "auth_token" [116; 107] 0 (ITEM_LIFETIME + 1)).
  - repeat (apply List.Forall_cons; [unfold is_byte; lia|]). apply List.Forall_nil.
  - lia.
  - lia.
Defined.

Lemma setItem_non_latin1_witness :
  setItem (generateKey [77; 111; 122]) ∅ "user_data" [8364] 0 = ∅.
Proof.
  apply setItem_non_latin1.
  - apply List.Forall_cons; [unfold is_unit; simpl; lia|apply List.Forall_nil].
  - apply Exists_cons_hd. lia.
Defined.

Lemma isTokenExpired_setItem_witness :
  isTokenExpired (setItem (generateKey [77; 111; 122]) ∅ "auth_token" [116; 107] 0) "auth_token"
    (ITEM_LIFETIME + 1) = (0 + ITEM_LIFETIME <? ITEM_LIFETIME + 1).
Proof.
  apply isTokenExpired_setItem.
  - repeat (apply List.Forall_cons; [unfold is_byte; lia|]). apply List.Forall_nil.
  - lia.
Defined.



Lemma append_cons c a b : String.append (String c a) b = String c (String.append a b).
Proof. reflexivity. Qed.

Lemma slash_free_app a b : slash_free (String.append a b) = slash_free a && slash_free b.
Proof.
  induction a as [|c a IH]; [done|]. rewrite append_cons. simpl. rewrite IH.
  by rewrite andb_assoc.
Qed.

Lemma form_char_slash_free c : slash_free (form_char c) = true.
Proof. destruct c as [[] [] [] [] [] [] [] []]; reflexivity. Qed.

Lemma form_encode_slash_free s : slash_free (form_encode s) = true.
Proof.
  induction s as [|c s IH]; [done|]. simpl. by rewrite slash_free_app, form_char_slash_free, IH.
Qed.

Lemma params_slash_free ps : slash_free (params_to_string ps) = true.
Proof.
  induction ps as [|[k v] ps IH]; [done|]. simpl.
  destruct ps; rewrite !slash_free_app, !form_encode_slash_free; [done|].
  by rewrite IH.
Qed.

Lemma with_query_split base ps :
  exists rest, with_query base ps = String.append base rest /\ slash_free rest = true.
Proof.
  unfold with_query. case_match.
  - exists "". split; [|done]. clear. induction base as [|c b IH]; [done|].
    rewrite append_cons, <- IH. done.
  - eexists. split; [reflexivity|]. simpl. apply params_slash_free.
Qed.

Lemma includes_slash_free s k : slash_free s = true -> includes s (String "/" k) = false.
Proof.
  induction s as [|c s IH]; [done|]. cbn [includes starts_with slash_free]. intros H.
  apply andb_true_iff in H as [Hc Hs]. apply negb_true_iff in Hc.
  rewrite Ascii.eqb_sym, Hc. simpl. by apply IH.
Qed.

Lemma mismatch_starts_with s b k :
  mismatch s k = true -> starts_with (String.append s b) k = false.
Proof.
  revert k. induction s as [|c s IH]; intros k H; [done|].
  destruct k as [|d k]; [done|]. rewrite append_cons. cbn [starts_with mismatch] in *.
  apply orb_true_iff in H as [H|H].
  - apply negb_true_iff in H. by rewrite H.
  - rewrite IH by done. apply andb_false_r.
Qed.

Lemma includes_app_false a b k :
  all_mismatch a (String "/" k) = true -> slash_free b = true ->
  includes (String.append a b) (String "/" k) = false.
Proof.
  intros Ha Hb. induction a as [|c a IH]; [by apply includes_slash_free|].
  simpl in Ha. apply andb_true_iff in Ha as [H1 H2].
  rewrite append_cons. cbn [includes].
  rewrite <- append_cons, mismatch_starts_with by done. simpl. by apply IH.
Qed.

Lemma starts_with_app s b k : starts_with s k = true -> starts_with (String.append s b) k = true.
Proof.
  revert k. induction s as [|c s IH]; intros k H.
  - destruct k; [destruct b; done|done].
  - destruct k as [|d k]; [destruct (String.append _ _); done|].
    rewrite append_cons. cbn [starts_with] in *. apply andb_true_iff in H as [-> H]. by apply IH.
Qed.

Lemma includes_app_true a b k : includes a k = true -> includes (String.append a b) k = true.
Proof.
  induction a as [|c a IH]; intros H.
  - destruct k; [|discriminate]. by destruct b.
  - cbn [includes] in H. rewrite append_cons. cbn [includes].
    apply orb_true_iff in H as [H|H].
    + rewrite <- append_cons, starts_with_app by done. done.
    + rewrite IH by done. apply orb_true_r.
Qed.

Lemma includes_starts_with s k : includes s k = false -> starts_with s k = false.
Proof. destruct s; simpl; intros H; apply orb_false_iff in H; tauto. Qed.

Lemma retryRequest_from net f a k0 : exists k, fst (retryRequest net f a k0) = net k.
Proof.
  revert a k0. induction f as [|f IH]; intros a k0; simpl.
  - case_match; simpl; eauto.
  - repeat case_match; simpl; eauto.
Qed.

(** A failing result of the network: a server error or no response. *)
Definition failing (o : outcome) : Prop := is_server_error o || is_network_error o = true.

Lemma failing_not_success o : failing o -> is_success o = false.
Proof.
  unfold failing. destruct o as [s d|]; simpl; [|done]. intros H.
  rewrite orb_false_r in H. apply Z.leb_le in H.
  apply andb_false_iff. right. apply Z.ltb_ge. lia.
Qed.

(** A GET that reaches the rejection handler in an outage, with nothing
    cached, resolves with the fallback response of its path. *)
Lemma on_live_error_outage st p t1 o1 net :
  p <> "" -> responseCache st !! cache_key GET p = None ->
  failing o1 -> (forall k, failing (snd (net k))) ->
  exists t, d_result (on_live_error st GET p t1 o1 net) = Resolved (getFallbackResponse p GET t).
Proof.
  intros Hp Hc H1 Hn. unfold on_live_error.
  set (st1 := set_breakers st _).
  assert (Hl : exists last calls,
             (if is_5xx o1 then retryRequest net RETRY_ATTEMPTS 1 1 else ((t1, o1), 1%nat))
             = (last, calls) /\ failing (snd last)).
  { destruct (is_5xx o1).
    - destruct (retryRequest_from net RETRY_ATTEMPTS 1 1) as [k Hk].
      destruct (retryRequest net RETRY_ATTEMPTS 1 1) as [last calls].
      exists last, calls. simpl in Hk. subst. split; [done|apply Hn].
    - eexists _, _. split; [reflexivity|done]. }
  destruct Hl as [[tk ok] [calls [-> Hok]]]. simpl in Hok.
  destruct (String.eqb_spec p "") as [|_]; [congruence|].
  destruct ok as [s d|].
  - rewrite failing_not_success by done.
    unfold failing in Hok. simpl in Hok. rewrite orb_false_r in Hok. simpl. rewrite Hok.
    unfold getCachedResponse. simpl. rewrite Hc. eauto.
  - simpl.
    unfold getCachedResponse. simpl. rewrite Hc. eauto.
Qed.

(** In an outage (every network call a server error or no response), a
    GET to a non-empty path other than the deprecated one, with nothing
    cached for it and not throttled, resolves with the fallback response
    of its path. *)
Lemma get_outage st p now net :
  p <> "" -> p <> DEPRECATED_ENDPOINT ->
  responseCache st !! cache_key GET p = None ->
  throttled (recentCalls st) p now = false ->
  (forall k, failing (snd (net k))) ->
  exists t, d_result (dispatch st GET p now net) = Resolved (getFallbackResponse p GET t).
Proof.
  intros Hp Hd Hc Ht Hn. unfold dispatch.
  destruct (short_circuits (circuitBreakers st) p now) eqn:Hs.
  - unfold short_circuits in Hs. unfold request_interceptor, getCircuitBreaker.
    destruct (circuitBreakers st !! p) as [b|] eqn:Hb; [|discriminate].
    apply andb_true_iff in Hs as [Hst Hr]. apply negb_true_iff in Hr.
    destruct (state b); try discriminate. simpl. rewrite Hr.
    unfold getCachedResponse. simpl. rewrite Hc. simpl. eauto.
  - assert (Hpr : snd (request_interceptor st GET p now) = Proceed).
    { apply request_interceptor_proceed. done. }
    pose proof (request_interceptor_cache st GET p now) as Hcache.
    rewrite (request_interceptor_pair _ _ _ _ Hpr).
    set (st1 := fst (request_interceptor st GET p now)).
    assert (Hc1 : responseCache st1 !! cache_key GET p = None) by (unfold st1; by rewrite Hcache).
    pose proof (Hn 0%nat) as H0.
    destruct (net 0%nat) as [t1 o1] eqn:E0. simpl in H0.
    destruct o1 as [s d|].
    + rewrite failing_not_success by done. by apply on_live_error_outage.
    + by apply on_live_error_outage.
Qed.

Lemma append_ne a rest s : mismatch a s = true -> String.append a rest <> s.
Proof.
  revert s. induction a as [|c a IH]; intros s H; [done|].
  destruct s as [|d s]; [done|]. rewrite append_cons. cbn [mismatch] in H.
  intros E. injection E as -> E. rewrite Ascii.eqb_refl in H. simpl in H.
  by apply (IH s).
Qed.

Lemma append_nonempty a rest : a <> "" -> String.append a rest <> "".
Proof. destruct a; [done|]. intros _. rewrite append_cons. discriminate. Qed.

Lemma key_absent a rest k :
  all_mismatch a (String "/" k) = true -> slash_free rest = true ->
  includes (String.append a rest) (String "/" k) ||
  starts_with (String.append a rest) (String "/" k) = false.
Proof.
  intros Ha Hr. pose proof (includes_app_false a rest k Ha Hr) as H.
  by rewrite H, includes_starts_with.
Qed.

Lemma key_present a rest k :
  includes a k = true ->
  includes (String.append a rest) k || starts_with (String.append a rest) k = true.
Proof. intros H. by rewrite includes_app_true. Qed.

(** The fallback of a path under [/expenses] with a slash-free tail. *)
Lemma find_fallback_expenses a rest :
  all_mismatch a "/settings" = true -> includes a "/expenses" = true ->
  slash_free rest = true ->
  find_fallback (String.append a rest) =
  Some [("success", JBool true); ("data", JArr []); ("pagination", pagination_stub);
        ("message", JStr "Using cached expenses data")].
Proof.
  intros H1 H2 Hr. unfold find_fallback, fallbackData. cbn [List.find fst snd].
  rewrite key_absent by done. rewrite key_present by done. reflexivity.
Qed.

Lemma find_fallback_none a rest :
  all_mismatch a "/settings" = true -> all_mismatch a "/expenses" = true ->
  all_mismatch a "/budgets" = true -> slash_free rest = true ->
  find_fallback (String.append a rest) = None.
Proof.
  intros H1 H2 H3 Hr. unfold find_fallback, fallbackData. cbn [List.find fst snd].
  rewrite !key_absent by done. reflexivity.
Qed.

Lemma get_data_expenses_stub st a rest now net :
  a <> "" -> mismatch a DEPRECATED_ENDPOINT = true ->
  all_mismatch a "/settings" = true -> includes a "/expenses" = true ->
  slash_free rest = true ->
  responseCache st !! cache_key GET (String.append a rest) = None ->
  throttled (recentCalls st) (String.append a rest) now = false ->
  (forall k, failing (snd (net k))) ->
  exists t, (get_data st (String.append a rest) now net).2 =
    ApiOk (JObj [("success", JBool true); ("data", JArr []); ("pagination", pagination_stub);
                 ("message", JStr "Using cached expenses data"); ("fallback", JBool true);
                 ("endpoint", JStr (String.append a rest));
                 ("timestamp", JStr (toISOString t))]).
Proof.
  intros He Hd H1 H2 Hr Hc Ht Hn.
  destruct (get_outage st (String.append a rest) now net) as [t Ho];
    [by apply append_nonempty|by apply append_ne|done|done|done|].
  exists t. unfold get_data. rewrite Ho. unfold getFallbackResponse.
  rewrite find_fallback_expenses by done. reflexivity.
Qed.

(** When every attempt fails with a 5xx status or no response (cache miss, not
    throttled), [getExpenses] resolves with the fallback expenses object. *)
Theorem getExpenses_outage st filters now net :
  responseCache st !! cache_key GET (getExpenses_url filters) = None ->
  throttled (recentCalls st) (getExpenses_url filters) now = false ->
  (forall k, failing (snd (net k))) ->
  exists t, (getExpenses st filters now net).2 =
    ApiOk (JObj [("success", JBool true); ("data", JArr []); ("pagination", pagination_stub);
                 ("message", JStr "Using cached expenses data"); ("fallback", JBool true);
                 ("endpoint", JStr (getExpenses_url filters));
                 ("timestamp", JStr (toISOString t))]).
Proof.
  unfold getExpenses, getExpenses_url.
  destruct (with_query_split "/expenses" (expenses_params filters)) as [rest [-> Hr]].
  intros Hc Ht Hn. by apply get_data_expenses_stub.
Qed.

(** In the same outage, each analytics function resolves with the fallback
    expenses object, since its path contains [/expenses]. *)
Theorem analytics_outage_expenses_stub api url_of st params now net :
  In (api, url_of) analytics_calls ->
  responseCache st !! cache_key GET (url_of params) = None ->
  throttled (recentCalls st) (url_of params) now = false ->
  (forall k, failing (snd (net k))) ->
  exists t, (api st params now net).2 =
    ApiOk (JObj [("success", JBool true); ("data", JArr []); ("pagination", pagination_stub);
                 ("message", JStr "Using cached expenses data"); ("fallback", JBool true);
                 ("endpoint", JStr (url_of params));
                 ("timestamp", JStr (toISOString t))]).
Proof.
  intros Hin. simpl in Hin.
  repeat destruct Hin as [Hin|Hin]; try (injection Hin as <- <-); [..|done];
  [ unfold getTimePeriodSummary, time_summary_url
  | unfold getPeriodDetail, period_detail_url
  | unfold getCategoryBreakdown, category_breakdown_url
  | unfold getExpenseTrends, trends_url
  | unfold getYearlyComparison, yearly_comparison_url ];
  match goal with |- context [with_query ?a ?ps] =>
    destruct (with_query_split a ps) as [rest [-> Hr]] end;
  intros Hc Ht Hn; by apply get_data_expenses_stub.
Qed.

(** In the same outage, [getExpenseCategories] resolves with one pseudo-category,
    the 503 fallback object, since its path matches no fallback entry. *)
Theorem getExpenseCategories_outage st options now net :
  responseCache st !! cache_key GET (categories_url options) = None ->
  throttled (recentCalls st) (categories_url options) now = false ->
  (forall k, failing (snd (net k))) ->
  exists t, (getExpenseCategories st options now net).2 =
    ApiOk (JObj [("categories",
                  JArr [JObj [("success", JBool false);
                              ("message", JStr "Service temporarily unavailable. Please try again later.");
                              ("fallback", JBool true);
                              ("endpoint", JStr (categories_url options));
                              ("timestamp", JStr (toISOString t))]]);
                 ("pagination", JNull); ("totalCount", JNum 1); ("summary", JNull)]).
Proof.
  unfold getExpenseCategories, categories_url.
  destruct (with_query_split "/categories" (categories_params options)) as [rest [-> Hr]].
  intros Hc Ht Hn.
  destruct (get_outage st (String.append "/categories" rest) now net) as [t Ho];
    [by apply append_nonempty|by apply append_ne|done|done|done|].
  exists t. simpl. rewrite Ho. unfold getFallbackResponse.
  rewrite find_fallback_none by done.
  by destruct (truthy (field options "id")).
Qed.

(** In the same outage, [getExpenseById] resolves with an expense whose fields
    are all [null]: the fallback's empty [data] array is truthy. *)
Theorem getExpenseById_outage st id now net :
  responseCache st !! cache_key GET (String.append "/expenses/" id) = None ->
  throttled (recentCalls st) (String.append "/expenses/" id) now = false ->
  (forall k, failing (snd (net k))) ->
  (getExpenseById st id now net).2 =
    ApiOk (JObj [("distanceInKm", JNull); ("startLocation", JNull); ("endLocation", JNull);
                 ("categoryId", JNull); ("expenseDate", JNull)]).
Proof.
  intros Hc Ht Hn.
  destruct (get_outage st (String.append "/expenses/" id) now net) as [t Ho];
    [by apply append_nonempty|by apply append_ne|done|done|done|].
  unfold getExpenseById. simpl. rewrite Ho. unfold getFallbackResponse, find_fallback, fallbackData.
  cbn [List.find fst snd].
  destruct (includes (String.append "/expenses/" id) "/settings" ||
            starts_with (String.append "/expenses/" id) "/settings"); [reflexivity|].
  rewrite key_present by reflexivity. reflexivity.
Qed.

(** [getExpenseCategories] throws exactly when the response data is [null], and
    otherwise returns an object whose first field is a [categories] array. *)
Theorem categories_result_shape has_id data :
  (categories_result has_id data = ApiTypeError <-> data = JNull) /\
  (data <> JNull -> exists categories rest,
     categories_result has_id data = ApiOk (JObj (("categories", JArr categories) :: rest))).
Proof.
  split.
  - split; [|intros ->; done]. unfold categories_result.
    destruct data; try done; repeat case_match; discriminate.
  - intros Hd. unfold categories_result. destruct data; try done;
      case_match; eauto.
Qed.

Lemma getExpenses_outage_witness :
  exists t, (getExpenses empty_state [("page", JNum 2)] 0 (net_const 0 503 JNull)).2 =
    ApiOk (JObj [("success", JBool true); ("data", JArr []); ("pagination", pagination_stub);
                 ("message", JStr "Using cached expenses data"); ("fallback", JBool true);
                 ("endpoint", JStr (getExpenses_url [("page", JNum 2)]));
                 ("timestamp", JStr (toISOString t))]).
Proof.
  apply getExpenses_outage; [reflexivity|reflexivity|intros k; reflexivity].
Defined.

Lemma analytics_outage_expenses_stub_witness :
  exists t, (getTimePeriodSummary empty_state [("year", JNum 2024)] 0 (fun _ => (0, NoResp))).2 =
    ApiOk (JObj [("success", JBool true); ("data", JArr []); ("pagination", pagination_stub);
                 ("message", JStr "Using cached expenses data"); ("fallback", JBool true);
                 ("endpoint", JStr (time_summary_url [("year", JNum 2024)]));
                 ("timestamp", JStr (toISOString t))]).
Proof.
  apply (analytics_outage_expenses_stub getTimePeriodSummary time_summary_url).
  - left. reflexivity.
  - reflexivity.
  - reflexivity.
  - intros k. reflexivity.
Defined.

Lemma getExpenseCategories_outage_witness :
  exists t, (getExpenseCategories empty_state [("search", JStr "fuel/travel")] 0
               (net_const 0 502 JNull)).2 =
    ApiOk (JObj [("categories",
                  JArr [JObj [("success", JBool false);
                              ("message", JStr "Service temporarily unavailable. Please try again later.");
                              ("fallback", JBool true);
                              ("endpoint", JStr (categories_url [("search", JStr "fuel/travel")]));
                              ("timestamp", JStr (toISOString t))]]);
                 ("pagination", JNull); ("totalCount", JNum 1); ("summary", JNull)]).
Proof.
  apply getExpenseCategories_outage; [reflexivity|reflexivity|intros k; reflexivity].
Defined.

Lemma getExpenseById_outage_witness :
  (getExpenseById empty_state "665f1c" 0 (net_const 0 500 JNull)).2 =
    ApiOk (JObj [("distanceInKm", JNull); ("startLocation", JNull); ("endLocation", JNull);
                 ("categoryId", JNull); ("expenseDate", JNull)]).
Proof.
  apply getExpenseById_outage; [reflexivity|reflexivity|intros k; reflexivity].
Defined.

Lemma categories_result_shape_witness :
  exists categories rest,
    categories_result true (JObj [("data", JObj [("name", JStr "Fuel")])]) =
    ApiOk (JObj (("categories", JArr categories) :: rest)).
Proof. apply (proj2 (categories_result_shape true _)). discriminate. Defined.




Lemma json_ind' (P : json -> Prop) :
  P JNull -> (forall b, P (JBool b)) -> (forall n, P (JNum n)) -> (forall s, P (JStr s)) ->
  (forall l, Forall P l -> P (JArr l)) ->
  (forall fs, Forall (fun kv : string * json => P kv.2) fs -> P (JObj fs)) ->
  forall v, P v.
Proof.
  intros HN HB HNum HS HA HO. fix go 1. intros [|b|n|s|l|fs].
  - exact HN.
  - apply HB.
  - apply HNum.
  - apply HS.
  - apply HA. revert l. fix goL 1. intros [|x l]; constructor; [apply go|apply goL].
  - apply HO. revert fs. fix goF 1. intros [|[k x] fs]; constructor; [apply go|apply goF].
Qed.

(** After [sanitizeData], every property with a sensitive name, at any depth, holds
    ["[REDACTED]"]. *)
Theorem sanitizeData_redacts data : redacted (sanitizeData data) = true.
Proof.
  induction data as [| | | |l Hl|fs Hfs] using json_ind'; try reflexivity.
  - simpl. induction Hl as [|x l Hx _ IH]; simpl; [done|]. by rewrite Hx, IH.
  - simpl. induction Hfs as [|[k x] fs Hx _ IH]; simpl in *; [done|].
    rewrite IH, andb_true_r. destruct (is_sensitive k); [reflexivity|].
    destruct x; simpl; try reflexivity; exact Hx.
Qed.

(** [sanitizeData] is idempotent. *)
Theorem sanitizeData_idempotent data : sanitizeData (sanitizeData data) = sanitizeData data.
Proof.
  induction data as [| | | |l Hl|fs Hfs] using json_ind'; try reflexivity.
  - simpl. f_equal. induction Hl as [|x l Hx _ IH]; simpl; [done|]. by rewrite Hx, IH.
  - simpl. f_equal. induction Hfs as [|[k x] fs Hx _ IH]; simpl in *; [done|].
    rewrite IH. f_equal. f_equal.
    destruct (is_sensitive k); [reflexivity|].
    destruct x; try reflexivity; simpl in *; rewrite Hx; reflexivity.
Qed.

(** [sanitizeData] changes nothing in data without a sensitive property name. *)
Theorem sanitizeData_clean data : no_sensitive_keys data = true -> sanitizeData data = data.
Proof.
  induction data as [| | | |l Hl|fs Hfs] using json_ind'; try reflexivity.
  - simpl. intros H. f_equal. induction Hl as [|x l Hx _ IH]; simpl in *; [done|].
    apply andb_true_iff in H as [H1 H2]. by rewrite Hx, IH.
  - simpl. intros H. f_equal. induction Hfs as [|[k x] fs Hx _ IH]; simpl in *; [done|].
    apply andb_true_iff in H as [H1 H2]. apply andb_true_iff in H1 as [Hk H1].
    apply negb_true_iff in Hk. rewrite Hk, IH by done.
    destruct x; try reflexivity; rewrite Hx; done.
Qed.

Lemma sanitizeData_clean_witness :
  no_sensitive_keys (JObj [("endpoint", JStr "/expenses"); ("status", JNum 503)]) = true /\
  sanitizeData (JObj [("endpoint", JStr "/expenses"); ("status", JNum 503)]) =
  JObj [("endpoint", JStr "/expenses"); ("status", JNum 503)].
Proof.
  assert (H : no_sensitive_keys (JObj [("endpoint", JStr "/expenses"); ("status", JNum 503)]) = true)
    by reflexivity.
  split; [exact H|]. exact (sanitizeData_clean _ H).
Defined.
